(* ===== verification/_CoqProject ===== *)
-Q . S2P
Prelude.v
CInt.v
Config.v
Machine.v
Coil.v
Ring.v
Servo.v
Planner.v
Session.v
