(* ===== verification/Prelude.v ===== *)
(** * A verification development for the string-art plotting rig

    The program (src/src/main.cpp, one Arduino sketch of 157 lines)
    drives a ring of [num_nails = 32] nails turned by a 28BYJ-48 stepper
    through a 4:1 reduction, and a servo arm that lays the thread
    inside or outside the nail under it.  Its parts, leaf first:

    - Coil sequencer: the half-step table [lookup] (main.cpp 34-37),
      the global [current_step_index] and the four [digitalWrite]s plus
      the index update of the loop body of [rotate_ring] (42-47).
    - Ring position tracker: the global [current_ring_step_position],
      [rotate_ring] (39-52) and [rotate_ring_to_nail] (78-86), which
      picks the shorter arc to the nail.
    - Arm actuator: the global [current_servo_angle] and [moveServo]
      (54-69): range guard, one-degree interpolation loop, settle delay.
    - Plot planner: [plot_around_nail] (88-93) and the drawing loop of
      [loop] (145-150) over [double_bounce_star_sequence].
    - Session controller: [setup] (95-129), [loop] (131-157) and the
      blocking operator handshake [wait_for_user_confirm] (71-76).

    The planner calls the tracker and the actuator; the tracker calls
    the coil sequencer once per physical step; the session controller
    calls everything and blocks on the serial console between phases.
    All state is three [int] globals plus the serial input buffer.

    ** Files of the library
    - [Prelude] (this file): the scope [sa_scope], the command
      notation [c1 ;; c2] of the option-state monad used for the
      sketch's [void] functions, the hint database [sa], the tactics
      [zdiv] and [sa_simp], and the generic lemmas on [Z.rem],
      [Z.modulo] and commands that the components share.
    - [CInt]: the C [int] of the target as a class [Platform] whose
      law is the ISO C minimum width (16 bits); wrap-around of
      [+ - * / %] at that width ([c_add], [c_mul], [c_div], ...), and
      the two instances [rp2040] (32-bit [int], the board the pin
      numbers 16 and 18-21 and [while(!Serial)] point to) and [avr]
      (16-bit [int]).
    - [Config]: the constants of main.cpp 5-37, computed with the C
      operations of the platform, and their values.
    - [Machine]: the observable state: the globals, the serial input
      buffer and the output trace of Arduino calls ([Event]); the
      Arduino primitives ([digitalWrite], [delay], [myServo.write],
      [Serial.println]) as state transformers.
    - [Coil]: the coil sequencer.  [Ring]: the tracker, with an
      abstract specification of a shortest-arc move and the refinement
      theorem.  [Servo]: the actuator.  [Planner]: the planner, written
      against the interfaces [RingDriver] and [ArmDriver].  [Session]:
      the controller as a labelled step relation with its executable
      step function.

    ** What the theorems show (statements in each file; C<n> numbers)
    - Ring (Ring.v): [rotate_ring_to_nail n] lands on [n * 512] from any
      valid position (C1); it issues exactly the circular distance of
      steps, at most half a revolution (C2); it refines the abstract
      [arc_move] specification (C3); [rotate_ring] keeps the coil phase
      congruent to the position modulo 8 (C8); no [int] of the tracker
      wraps on a 16-bit platform (C16); a second call issues nothing
      (C19); the specification's scenario [goto 31] from 0 (C23);
      [k] steps one way and [k] back restore position and phase (C24).
      Findings: the coil pattern lags by two half-steps at each reversal
      (C12); the half-turn tie-break depends on the side (C14).
    - Servo (Servo.v): [moveServo] terminates within its fuel and
      reaches its target with [|t - a|] one-degree writes (C6, C21),
      rejects out-of-range targets without moving and without telling
      the caller (C11), and only settles on a move to the current angle
      (C20).
    - Planner (Planner.v): against the interfaces, [plot_around_nail n]
      ends on nail [n + 1] with the arm inside (C18) and the drawing
      loop ends on nail 1 (C15, a divergence from the specification's
      nail 0); with the sketch's drivers [plot_around_nail] is the
      over-under weave of one nail (C7).
    - Session (Session.v): every reachable state satisfies the
      invariant (C4); the operator answering the four prompts reaches
      [Complete] (C5); [Complete] is terminal and motionless (C9); no
      wait passes
      without input (C10); a late byte skips the "ring removed"
      confirmation (C13, finding).
    - Config (Config.v): the step delay is 1464 exactly when [int] has
      at least 24 bits, and -7 on a 16-bit AVR (C17); Coil (Coil.v):
      the table is a half-step sequence (C22) and its index updates
      [+1] and [+7] modulo 8 are inverse (C25).

    ** How the session is modelled
    [Session.sstep] is a labelled relation on (program point, machine).
    The program points are the four blocking [wait_for_user_confirm]
    calls ([Await w]), the points just after them ([Resumed w]), the
    drawing loop index ([Drawing i]) and the final idle loop
    ([Complete]).  The code between two waits is one command
    ([after_wait w]) of the option-state monad, built from the
    component definitions.  The operator's bytes arrive by [Arrive]
    steps, enabled in every state, so that any interleaving of input
    with the sketch's execution is a run.  A run records each label
    with the phase it fired in.

    ** Fuel
    The unbounded loops of the sketch are the [while] of [moveServo],
    the two [while]s of [wait_for_user_confirm] and the final
    [while (true)].  The waits and the idle loop are steps of the
    session relation (a wait is enabled only when a byte is buffered;
    draining is structural on the buffer), so they need no fuel.  The
    servo loop is modelled with fuel [servo_loop_fuel = 181]: from a valid angle
    in [0, 180] to a valid target the loop tests its condition at most
    181 times, and the theorems of [Servo] prove that this fuel is never
    exhausted on such inputs.  [for] loops are bounded by their count.

    ** Not modelled
    Pin electrical behaviour, timing (delays are recorded as events with
    their argument, not waited), the servo library and the USB/serial
    driver (modelled only as a byte buffer that the operator fills).
    [while(!Serial);] is taken as passed.  The Arduino calls are not
    given a semantics beyond their effect on the trace; the energized
    coils are read back from the last [digitalWrite] of each pin.
*)

From Stdlib Require Export ZArith Lia List String.
From stdpp Require Export base decidable list numbers.

Declare Scope sa_scope.
Delimit Scope sa_scope with sa.
Open Scope Z_scope.

Create HintDb sa.

(** ** Commands: state transformers that may fail (run out of fuel) *)

Definition cmd (S : Type) : Type := S -> option S.

Definition cmd_seq {S : Type} (c1 c2 : cmd S) : cmd S :=
  fun s => match c1 s with Some s1 => c2 s1 | None => None end.

Definition cmd_lift {S : Type} (f : S -> S) : cmd S := fun s => Some (f s).

Notation "c1 ;; c2" := (cmd_seq c1 c2)
  (at level 100, c2 at level 200, right associativity) : sa_scope.
Notation "'do!' f" := (cmd_lift f) (at level 10, f at level 9) : sa_scope.

Local Open Scope sa_scope.

Lemma cmd_seq_Some {S : Type} (c1 c2 : cmd S) s s1 :
  c1 s = Some s1 -> (c1 ;; c2) s = c2 s1.
Proof. unfold cmd_seq. by intros ->. Qed.

Lemma cmd_seq_None {S : Type} (c1 c2 : cmd S) s :
  c1 s = None -> (c1 ;; c2) s = None.
Proof. unfold cmd_seq. by intros ->. Qed.

Lemma cmd_lift_seq {S : Type} (f : S -> S) (c : cmd S) s :
  (do! f ;; c) s = c (f s).
Proof. reflexivity. Qed.

Lemma cmd_seq_assoc {S : Type} (c1 c2 c3 : cmd S) s :
  ((c1 ;; c2) ;; c3) s = (c1 ;; (c2 ;; c3)) s.
Proof. unfold cmd_seq. by destruct (c1 s). Qed.

#[export] Hint Rewrite @cmd_lift_seq @cmd_seq_assoc : sa.

(** ** Integer lemmas shared by the components *)

(** C's [%] truncates; on a non-negative dividend it is [Z.modulo]. *)
Lemma rem_nonneg a b : 0 <= a -> 0 < b -> Z.rem a b = a mod b.
Proof. apply Z.rem_mod_nonneg. Qed.

(** One step up or down a cycle of length [m], as [(p + 1) % m] and
    [(p + (m - 1)) % m] compute it. *)
Lemma cycle_succ p m : 0 <= p < m -> Z.rem (p + 1) m = (p + 1) mod m.
Proof. intros. apply rem_nonneg; lia. Qed.

Lemma cycle_pred p m :
  0 <= p < m -> Z.rem (p + (m - 1)) m = (p - 1) mod m.
Proof.
  intros. rewrite rem_nonneg by lia.
  replace (p + (m - 1)) with ((p - 1) + 1 * m) by lia.
  apply Z.mod_add; lia.
Qed.

Lemma mod_in_range a m : 0 < m -> 0 <= a mod m < m.
Proof. apply Z.mod_pos_bound. Qed.

Lemma mod_small_id a m : 0 <= a < m -> a mod m = a.
Proof. apply Z.mod_small. Qed.

#[export] Hint Resolve mod_in_range : sa.

(** Linear arithmetic through [Z.quot], [Z.rem], [Z.div], [Z.modulo]. *)
Ltac zdiv := Z.to_euclidean_division_equations; lia.

(** Unfold the development's simple definitions and close by [lia]. *)
Ltac sa_simp := autorewrite with sa in *; simpl in *; try lia.
