(* ===== verification/CInt.v ===== *)
(** The C [int] of the target board.  ISO C guarantees at least 16
    bits; the width is a field of the class [Platform] whose law is that
    minimum.  Arithmetic on [int] is modelled as two's-complement
    wrap-around at the width (what GCC's constant folder does, and what
    the hardware does at run time), so that an overflow shows up as a
    wrong value instead of disappearing in unbounded [Z]. *)

From S2P Require Import Prelude.

Class Platform := {
  int_bits : Z;
  int_bits_min : 16 <= int_bits
}.

(** The two boards are plain definitions, not global instances, so that
    no statement picks a width by instance search; a file that evaluates
    the model on a board declares it with [#[local] Existing Instance].

    The Raspberry Pi Pico (arduino-pico core): 32-bit [int]. *)
Definition rp2040 : Platform :=
  {| int_bits := 32; int_bits_min := ltac:(lia) |}.

(** An 8-bit AVR board (Uno, Mega): 16-bit [int]. *)
Definition avr : Platform :=
  {| int_bits := 16; int_bits_min := ltac:(lia) |}.

Section CInt.
Context `{Platform}.

Definition int_min : Z := - 2 ^ (int_bits - 1).
Definition int_max : Z := 2 ^ (int_bits - 1) - 1.

(** Reduce a mathematical result into [[int_min, int_max]]. *)
Definition wrap (z : Z) : Z := (z - int_min) mod 2 ^ int_bits + int_min.

Definition in_int (z : Z) : bool := (int_min <=? z) && (z <=? int_max).

Definition c_add (a b : Z) : Z := wrap (a + b).
Definition c_sub (a b : Z) : Z := wrap (a - b).
Definition c_mul (a b : Z) : Z := wrap (a * b).
(** [/] and [%] truncate toward zero (C99 6.5.5). *)
Definition c_div (a b : Z) : Z := wrap (Z.quot a b).
Definition c_rem (a b : Z) : Z := wrap (Z.rem a b).
Definition c_neg (a : Z) : Z := wrap (- a).
(** [abs] of <stdlib.h>. *)
Definition c_abs (a : Z) : Z := wrap (Z.abs a).

Lemma int_bits_pow : 2 ^ int_bits = 2 * 2 ^ (int_bits - 1).
Proof.
  pose proof int_bits_min.
  rewrite <- Z.pow_succ_r by lia. f_equal. lia.
Qed.

Lemma int_max_ge : 32767 <= int_max.
Proof.
  unfold int_max. pose proof int_bits_min.
  assert (2 ^ 15 <= 2 ^ (int_bits - 1)) by (apply Z.pow_le_mono_r; lia).
  lia.
Qed.

Lemma int_min_le : int_min <= -32768.
Proof. pose proof int_max_ge. unfold int_min, int_max in *. lia. Qed.

(** [wrap] is the identity on representable values. *)
Lemma wrap_small z : int_min <= z <= int_max -> wrap z = z.
Proof.
  intros Hz. unfold wrap. pose proof int_bits_pow.
  unfold int_min, int_max in *.
  rewrite Z.mod_small by lia. lia.
Qed.

Lemma wrap_range z : int_min <= wrap z <= int_max.
Proof.
  unfold wrap. pose proof int_bits_pow.
  assert (0 < 2 ^ (int_bits - 1)) by (apply Z.pow_pos_nonneg; pose proof int_bits_min; lia).
  pose proof (Z.mod_pos_bound (z - int_min) (2 ^ int_bits)).
  unfold int_min, int_max in *. lia.
Qed.

(** Representable on every platform: a 16-bit value. *)
Lemma wrap_small16 z : -32768 <= z <= 32767 -> wrap z = z.
Proof.
  intros. apply wrap_small. pose proof int_max_ge. pose proof int_min_le. lia.
Qed.

Lemma in_int_spec z : in_int z = true <-> int_min <= z <= int_max.
Proof. unfold in_int. rewrite andb_true_iff, !Z.leb_le. tauto. Qed.
End CInt.

(** Rewrite a C operation whose exact result fits in 16 bits. *)
Ltac c_exact :=
  repeat match goal with
  | |- context [wrap ?z] => rewrite (wrap_small16 z) by zdiv
  end.

#[export] Hint Resolve wrap_small16 : sa.
