(* ===== verification/Config.v ===== *)
(** The configuration constants of main.cpp (lines 5-37), each computed
    with the C [int] operations of the platform exactly as written, and
    lemmas giving their values on every platform (16-bit [int] or
    wider), except the step delay, whose value depends on the width. *)

From S2P Require Import Prelude CInt.

Section Config.
Context `{Platform}.

(** Ring (line 5). *)
Definition num_nails : Z := 32.

(** Stepper (lines 8-15). *)
Definition motorPin1 : Z := 18.
Definition motorPin2 : Z := 19.
Definition motorPin3 : Z := 20.
Definition motorPin4 : Z := 21.
Definition stepper_steps_per_ring_rotation : Z := c_mul 4096 4.
Definition steps_per_nail : Z := c_div stepper_steps_per_ring_rotation num_nails.
Definition target_stepper_rpm : Z := 10.
(** [(60/target_stepper_rpm) * 1000 * 1000 / 4096]: C evaluates left
    to right in [int]. *)
Definition step_delay_microseconds : Z :=
  c_div (c_mul (c_mul (c_div 60 target_stepper_rpm) 1000) 1000) 4096.

(** Servo (lines 19-24). *)
Definition servoPin : Z := 16.
Definition servo_middle_angle : Z := 90.
Definition servo_rotation_angle_span : Z := 60.
Definition servo_inside_angle : Z :=
  c_add servo_middle_angle (c_div servo_rotation_angle_span 2).
Definition servo_outside_angle : Z :=
  c_sub servo_middle_angle (c_div servo_rotation_angle_span 2).
Definition SERVO_DELAY_MS : Z := 500.

(** Artwork (lines 30-31). *)
Definition double_bounce_star_sequence : list Z :=
  [0; 11; 28; 7; 24; 3; 20; 31; 16; 27; 12; 23; 8; 19; 4; 15; 0].
Definition double_bounce_star_sequence_len : Z := 17.

(** Values on every platform. *)
Lemma stepper_steps_per_ring_rotation_eq : stepper_steps_per_ring_rotation = 16384.
Proof. unfold stepper_steps_per_ring_rotation, c_mul. apply wrap_small16. lia. Qed.

Lemma steps_per_nail_eq : steps_per_nail = 512.
Proof.
  unfold steps_per_nail, c_div. rewrite stepper_steps_per_ring_rotation_eq.
  apply wrap_small16. compute. intuition discriminate.
Qed.

Lemma servo_inside_angle_eq : servo_inside_angle = 120.
Proof.
  unfold servo_inside_angle, c_add, c_div.
  rewrite (wrap_small16 (Z.quot _ _)) by (compute; intuition discriminate).
  apply wrap_small16. compute. intuition discriminate.
Qed.

Lemma servo_outside_angle_eq : servo_outside_angle = 60.
Proof.
  unfold servo_outside_angle, c_sub, c_div.
  rewrite (wrap_small16 (Z.quot _ _)) by (compute; intuition discriminate).
  apply wrap_small16. compute. intuition discriminate.
Qed.

Lemma pow_width_le k : int_bits <= k -> 2 ^ (int_bits - 1) <= 2 ^ (k - 1).
Proof. pose proof int_bits_min. intros. apply Z.pow_le_mono_r; lia. Qed.

(** C17 (bounds, finding): the inter-step delay [(60/10)*1000*1000/4096] equals the
    intended 1464 microseconds exactly when [int] has at least 24 bits;
    on a narrower [int] (16-bit AVR) the product 6000000 wraps and the
    delay is a small or negative number. *)
Theorem step_delay_microseconds_exact :
  step_delay_microseconds = 1464 <-> 24 <= int_bits.
Proof.
  unfold step_delay_microseconds, target_stepper_rpm, c_div, c_mul.
  rewrite (wrap_small16 (Z.quot 60 10)) by (compute; intuition discriminate).
  rewrite (wrap_small16 (Z.quot 60 10 * 1000)) by (compute; intuition discriminate).
  change (Z.quot 60 10 * 1000 * 1000) with 6000000.
  split; intros Hw.
  - destruct (Z_lt_le_dec int_bits 24) as [Hlt|]; [exfalso|lia].
    pose proof (wrap_range 6000000) as Hr.
    pose proof (pow_width_le 23 ltac:(lia)) as Hp. change (2 ^ (23 - 1)) with 4194304 in Hp.
    unfold int_min, int_max in Hr.
    set (x := wrap 6000000) in *.
    assert (Hq : Z.abs (Z.quot x 4096) <= 1024) by zdiv.
    rewrite wrap_small16 in Hw by zdiv. lia.
  - assert (2 ^ (24 - 1) <= 2 ^ (int_bits - 1)) by (apply Z.pow_le_mono_r; lia).
    rewrite (wrap_small 6000000) by (unfold int_min, int_max; lia).
    apply wrap_small16; compute; intuition discriminate.
Qed.
End Config.

(** On a 16-bit AVR the delay constant is -7 (passed to
    [delayMicroseconds] as the unsigned 65529). *)
Example step_delay_microseconds_avr : @step_delay_microseconds avr = -7.
Proof. vm_compute. reflexivity. Qed.

#[export] Hint Rewrite @stepper_steps_per_ring_rotation_eq @steps_per_nail_eq
  @servo_inside_angle_eq @servo_outside_angle_eq : sa.

(** Unfold the constants that are literals, and rewrite the computed
    ones to their values. *)
Ltac config_simp :=
  rewrite ?@stepper_steps_per_ring_rotation_eq, ?@steps_per_nail_eq,
    ?@servo_inside_angle_eq, ?@servo_outside_angle_eq in *;
  unfold num_nails, SERVO_DELAY_MS in *.
