(* ===== verification/Machine.v ===== *)
(** The observable state of the sketch: its three [int] globals
    (main.cpp 16, 27, 28), the serial receive buffer read by
    [wait_for_user_confirm], and the trace of calls into the Arduino
    core (pin writes, delays, servo writes, serial output).  The trace is
    kept newest first, so that one call is one [cons]. *)

From Stdlib Require Import Init.Byte.
From S2P Require Import Prelude CInt Config.

#[export] Instance byte_eq_dec : EqDecision byte := Byte.byte_eq_dec.
#[export] Instance string_eq_dec : EqDecision string := String.string_dec.

(** A serial message: a string literal or an [int] printed in decimal. *)
Inductive Msg :=
| MsgText (text : string)
| MsgInt (value : Z).

(** One call into the Arduino core. *)
Inductive Event :=
| EvSerialBegin (baud : Z)
| EvPinModeOutput (pin : Z)
| EvServoAttach (pin : Z)
| EvDigitalWrite (pin : Z) (level : Z)
| EvDelayMicroseconds (us : Z)
| EvDelay (ms : Z)
| EvServoWrite (angle : Z)
| EvPrint (m : Msg)
| EvPrintln (m : Msg)
| EvSerialRead (b : byte).

#[export] Instance Msg_eq_dec : EqDecision Msg.
Proof. solve_decision. Defined.

#[export] Instance Event_eq_dec : EqDecision Event.
Proof. solve_decision. Defined.

Record Machine := mkMachine {
  current_ring_step_position : Z;
  current_step_index : Z;
  current_servo_angle : Z;
  rx_buffer : list byte;
  trace_rev : list Event
}.

(** Power-on values of the globals (lines 16, 27, 28). *)
Definition machine_init : Machine :=
  {| current_ring_step_position := 0; current_step_index := 0;
     current_servo_angle := 90; rx_buffer := []; trace_rev := [] |}.

(** ** Field updates *)

Definition set_position (p : Z) (s : Machine) : Machine :=
  {| current_ring_step_position := p; current_step_index := current_step_index s;
     current_servo_angle := current_servo_angle s; rx_buffer := rx_buffer s;
     trace_rev := trace_rev s |}.

Definition set_step_index (i : Z) (s : Machine) : Machine :=
  {| current_ring_step_position := current_ring_step_position s; current_step_index := i;
     current_servo_angle := current_servo_angle s; rx_buffer := rx_buffer s;
     trace_rev := trace_rev s |}.

Definition set_servo_angle (a : Z) (s : Machine) : Machine :=
  {| current_ring_step_position := current_ring_step_position s;
     current_step_index := current_step_index s;
     current_servo_angle := a; rx_buffer := rx_buffer s; trace_rev := trace_rev s |}.

Definition set_rx (b : list byte) (s : Machine) : Machine :=
  {| current_ring_step_position := current_ring_step_position s;
     current_step_index := current_step_index s;
     current_servo_angle := current_servo_angle s; rx_buffer := b;
     trace_rev := trace_rev s |}.

(** Append one call to the trace. *)
Definition emit (e : Event) (s : Machine) : Machine :=
  {| current_ring_step_position := current_ring_step_position s;
     current_step_index := current_step_index s;
     current_servo_angle := current_servo_angle s; rx_buffer := rx_buffer s;
     trace_rev := e :: trace_rev s |}.

(** ** Arduino primitives *)

Definition digitalWrite (pin level : Z) : Machine -> Machine :=
  emit (EvDigitalWrite pin level).
Definition delayMicroseconds (us : Z) : Machine -> Machine :=
  emit (EvDelayMicroseconds us).
Definition delay (ms : Z) : Machine -> Machine := emit (EvDelay ms).
Definition servo_write (angle : Z) : Machine -> Machine := emit (EvServoWrite angle).
Definition serial_print (m : Msg) : Machine -> Machine := emit (EvPrint m).
Definition serial_println (m : Msg) : Machine -> Machine := emit (EvPrintln m).

(** ** Frame lemmas: what each primitive leaves alone *)

Section Frame.
Context (e : Event) (s : Machine).

Lemma emit_position : current_ring_step_position (emit e s) = current_ring_step_position s.
Proof. reflexivity. Qed.
Lemma emit_step_index : current_step_index (emit e s) = current_step_index s.
Proof. reflexivity. Qed.
Lemma emit_angle : current_servo_angle (emit e s) = current_servo_angle s.
Proof. reflexivity. Qed.
Lemma emit_rx : rx_buffer (emit e s) = rx_buffer s.
Proof. reflexivity. Qed.
Lemma emit_trace : trace_rev (emit e s) = e :: trace_rev s.
Proof. reflexivity. Qed.
End Frame.

#[export] Hint Rewrite emit_position emit_step_index emit_angle emit_rx emit_trace : sa.

(** The well-formedness invariant of the globals: position on the ring,
    phase index in the table, servo angle in the servo's range. *)
Definition machine_ok `{Platform} (s : Machine) : Prop :=
  0 <= current_ring_step_position s < stepper_steps_per_ring_rotation /\
  0 <= current_step_index s < 8 /\
  0 <= current_servo_angle s <= 180.

Definition machine_okb `{Platform} (s : Machine) : bool :=
  (0 <=? current_ring_step_position s) &&
  (current_ring_step_position s <? stepper_steps_per_ring_rotation) &&
  (0 <=? current_step_index s) && (current_step_index s <? 8) &&
  (0 <=? current_servo_angle s) && (current_servo_angle s <=? 180).

Lemma machine_okb_spec `{Platform} s : machine_okb s = true <-> machine_ok s.
Proof.
  unfold machine_okb, machine_ok. rewrite !andb_true_iff, !Z.leb_le, !Z.ltb_lt. tauto.
Qed.

#[export] Instance machine_ok_dec `{Platform} s : Decision (machine_ok s).
Proof. destruct (machine_okb s) eqn:E; [left|right]; rewrite <- machine_okb_spec; congruence. Defined.

Lemma machine_init_ok `{Platform} : machine_ok machine_init.
Proof. unfold machine_ok; simpl. config_simp. lia. Qed.
