(* ===== verification/Coil.v ===== *)
(** The coil sequencer: the half-step table [lookup] (main.cpp 34-37),
    the four [digitalWrite]s of one step (42-45) and the update of
    [current_step_index] (47).  The pins keep the level last written to
    them, so the energized coils after a run of writes are read back from
    the trace by [pin_level]. *)

From S2P Require Import Prelude CInt Config Machine.

Module Coil.

(** [lookup[8][4]]: row [i] is the coil pattern of half-step phase [i]. *)
Definition lookup : list (list Z) :=
  [[1; 0; 0; 0]; [1; 1; 0; 0]; [0; 1; 0; 0]; [0; 1; 1; 0];
   [0; 0; 1; 0]; [0; 0; 1; 1]; [0; 0; 0; 1]; [1; 0; 0; 1]].

(** [lookup[row][col]]; the default is never read for rows in [0, 8). *)
Definition lookup_at (row col : Z) : Z :=
  nth (Z.to_nat col) (nth (Z.to_nat row) lookup []) 0.

Definition row (i : Z) : list Z := nth (Z.to_nat i) lookup [].

Section WithPlatform.
Context `{Platform}.

Definition motor_pins : list Z := [motorPin1; motorPin2; motorPin3; motorPin4].

(** Lines 42-45: write the four levels of the current phase. *)
Definition write_coils (s : Machine) : Machine :=
  let i := current_step_index s in
  digitalWrite motorPin4 (lookup_at i 3)
    (digitalWrite motorPin3 (lookup_at i 2)
       (digitalWrite motorPin2 (lookup_at i 1)
          (digitalWrite motorPin1 (lookup_at i 0) s))).

(** Line 47: [(current_step_index + (anti_clockwise ? 1 : 7)) % 8]. *)
Definition next_step_index (anti_clockwise : bool) (i : Z) : Z :=
  c_rem (c_add i (if anti_clockwise then 1 else 7)) 8.

(** Lines 42-47: one step of the sequencer. *)
Definition coil_step (anti_clockwise : bool) (s : Machine) : Machine :=
  set_step_index (next_step_index anti_clockwise (current_step_index s)) (write_coils s).
End WithPlatform.

(** The level a pin holds: the last value written to it, if any. *)
Fixpoint pin_level (pin : Z) (tr : list Event) : option Z :=
  match tr with
  | [] => None
  | EvDigitalWrite p v :: tr' => if decide (p = pin) then Some v else pin_level pin tr'
  | _ :: tr' => pin_level pin tr'
  end.

(** The four coil levels held after the calls of [tr] (newest first). *)
Definition coil_state `{Platform} (tr : list Event) : list (option Z) :=
  map (fun p => pin_level p tr) motor_pins.

(** Number of coils on which two patterns differ. *)
Fixpoint hamming (a b : list Z) : nat :=
  match a, b with
  | x :: a', y :: b' => (if decide (x = y) then 0 else 1) + hamming a' b'
  | _, _ => 0
  end.

(** ** Lemmas *)

Lemma lookup_at_row i c : lookup_at i c = nth (Z.to_nat c) (row i) 0.
Proof. reflexivity. Qed.

(** Enumerate a phase index in [0, 8). *)
Lemma phase_cases i : 0 <= i < 8 ->
  i = 0 \/ i = 1 \/ i = 2 \/ i = 3 \/ i = 4 \/ i = 5 \/ i = 6 \/ i = 7.
Proof. lia. Qed.

Ltac by_phase i :=
  let Hi := fresh in
  match goal with H : 0 <= i < 8 |- _ => destruct (phase_cases i H) as [Hi|[Hi|[Hi|[Hi|[Hi|[Hi|[Hi|Hi]]]]]]]; subst i end;
  vm_compute; repeat split.

Section Lemmas.
Context `{Platform}.

Lemma next_step_index_fwd i : 0 <= i < 8 -> next_step_index true i = (i + 1) mod 8.
Proof.
  intros. unfold next_step_index, c_rem, c_add.
  rewrite (wrap_small16 (i + 1)) by lia.
  rewrite cycle_succ by lia. apply wrap_small16.
  pose proof (mod_in_range (i + 1) 8). lia.
Qed.

Lemma next_step_index_bwd i : 0 <= i < 8 -> next_step_index false i = (i - 1) mod 8.
Proof.
  intros. unfold next_step_index, c_rem, c_add.
  rewrite (wrap_small16 (i + 7)) by lia.
  rewrite rem_nonneg by lia.
  replace (i + 7) with ((i - 1) + 1 * 8) by lia. rewrite Z.mod_add by lia.
  apply wrap_small16.
  pose proof (mod_in_range (i - 1) 8). lia.
Qed.

Lemma next_step_index_range acw i : 0 <= i < 8 -> 0 <= next_step_index acw i < 8.
Proof.
  intros. destruct acw; [rewrite next_step_index_fwd|rewrite next_step_index_bwd];
    auto; apply mod_in_range; lia.
Qed.

Lemma write_coils_trace s :
  trace_rev (write_coils s) =
    [EvDigitalWrite motorPin4 (lookup_at (current_step_index s) 3);
     EvDigitalWrite motorPin3 (lookup_at (current_step_index s) 2);
     EvDigitalWrite motorPin2 (lookup_at (current_step_index s) 1);
     EvDigitalWrite motorPin1 (lookup_at (current_step_index s) 0)] ++ trace_rev s.
Proof. reflexivity. Qed.

Lemma coil_step_fields acw s :
  current_ring_step_position (coil_step acw s) = current_ring_step_position s /\
  current_step_index (coil_step acw s) = next_step_index acw (current_step_index s) /\
  current_servo_angle (coil_step acw s) = current_servo_angle s /\
  rx_buffer (coil_step acw s) = rx_buffer s.
Proof. repeat split. Qed.

(** The pins hold the four levels of the row written. *)
Lemma coil_state_write_coils s :
  0 <= current_step_index s < 8 ->
  coil_state (trace_rev (write_coils s)) = map Some (row (current_step_index s)).
Proof.
  intros Hi. rewrite write_coils_trace. remember (current_step_index s) as i eqn:Ei.
  clear Ei. by_phase i.
Qed.
End Lemmas.

(** C22 (type): the table is a half-step sequence: consecutive phases,
    the wrap from 7 back to 0 included, differ in exactly one coil, and
    every phase energizes one or two coils, alternately, so that the
    four-coil pattern advances by half a step per phase in both
    directions. *)
Theorem lookup_half_step i :
  0 <= i < 8 ->
  hamming (row i) (row ((i + 1) mod 8)) = 1%nat /\
  length (row i) = 4%nat /\
  fold_right Z.add 0 (row i) = (if Z.even i then 1 else 2).
Proof. intros Hi. by_phase i. Qed.

Lemma lookup_half_step_witness :
  hamming (row 7) (row ((7 + 1) mod 8)) = 1%nat /\ length (row 7) = 4%nat /\
  fold_right Z.add 0 (row 7) = 2.
Proof. apply (lookup_half_step 7). lia. Defined.

Section Roundtrip.
Context `{Platform}.

(** C25 (roundtrip): a step of the sequencer one way followed by a step
    the other way restores the phase index: [+1] and [+7] are inverse
    modulo 8. *)
Theorem next_step_index_roundtrip acw i :
  0 <= i < 8 -> next_step_index (negb acw) (next_step_index acw i) = i.
Proof.
  intros Hi. destruct acw; simpl.
  - rewrite next_step_index_fwd, next_step_index_bwd by (try apply mod_in_range; lia). zdiv.
  - rewrite next_step_index_bwd, next_step_index_fwd by (try apply mod_in_range; lia). zdiv.
Qed.
End Roundtrip.

Section Witnesses.
#[local] Existing Instance rp2040.

Lemma next_step_index_roundtrip_witness :
  next_step_index false (next_step_index true 7) = 7.
Proof. apply (next_step_index_roundtrip true 7). lia. Defined.
End Witnesses.

End Coil.
