(* ===== verification/Ring.v ===== *)
(** The ring position tracker: [rotate_ring] (main.cpp 39-52), whose
    loop body drives the coil sequencer and moves
    [current_ring_step_position] one step, and [rotate_ring_to_nail]
    (78-86), which chooses the shorter arc to a nail.  Also the abstract
    specification [arc_move] of a nail move and the refinement theorem
    that the code implements it. *)

From S2P Require Import Prelude CInt Config Machine Coil.

Module Ring.

Section WithPlatform.
Context `{Platform}.

(** Line 48: [(pos + (anti_clockwise ? 1 : (R - 1))) % R]. *)
Definition advance_ring_position (anti_clockwise : bool) (p : Z) : Z :=
  c_rem (c_add p (if anti_clockwise then 1 else c_sub stepper_steps_per_ring_rotation 1))
    stepper_steps_per_ring_rotation.

(** Lines 41-50: one iteration of the [for] loop. *)
Definition rotate_ring_body (anti_clockwise : bool) (s : Machine) : Machine :=
  let s1 := Coil.coil_step anti_clockwise s in
  let s2 := set_position
              (advance_ring_position anti_clockwise (current_ring_step_position s1)) s1 in
  delayMicroseconds step_delay_microseconds s2.

Fixpoint rotate_ring_loop (n : nat) (anti_clockwise : bool) (s : Machine) : Machine :=
  match n with
  | O => s
  | S n' => rotate_ring_loop n' anti_clockwise (rotate_ring_body anti_clockwise s)
  end.

(** Lines 39-52: [for (int i = 0; i < steps; i++)] runs [max steps 0]
    times. *)
Definition rotate_ring (steps : Z) (anti_clockwise : bool) (s : Machine) : Machine :=
  rotate_ring_loop (Z.to_nat steps) anti_clockwise s.

(** Lines 82-83: fold the raw difference into half a revolution. *)
Definition wrap_diff (diff : Z) : Z :=
  let d1 := if diff >? c_div stepper_steps_per_ring_rotation 2
            then c_sub diff stepper_steps_per_ring_rotation else diff in
  if d1 <? c_div (c_neg stepper_steps_per_ring_rotation) 2
  then c_add d1 stepper_steps_per_ring_rotation else d1.

(** Lines 78-86. *)
Definition rotate_ring_to_nail (nail_idx : Z) (s : Machine) : Machine :=
  let target_pos := c_mul nail_idx steps_per_nail in
  let diff := wrap_diff (c_sub target_pos (current_ring_step_position s)) in
  rotate_ring (c_abs diff) (diff >? 0) s.

(** ** Mathematical counterparts *)

Definition R : Z := 16384.

Definition sgn (anti_clockwise : bool) : Z := if anti_clockwise then 1 else -1.

(** The calls one loop iteration makes, newest first. *)
Definition step_events (i : Z) : list Event :=
  [EvDelayMicroseconds step_delay_microseconds;
   EvDigitalWrite motorPin4 (Coil.lookup_at i 3);
   EvDigitalWrite motorPin3 (Coil.lookup_at i 2);
   EvDigitalWrite motorPin2 (Coil.lookup_at i 1);
   EvDigitalWrite motorPin1 (Coil.lookup_at i 0)].

(** The calls of [n] iterations starting at phase [i], newest first. *)
Fixpoint ring_events (n : nat) (acw : bool) (i : Z) : list Event :=
  match n with
  | O => []
  | S n' => ring_events n' acw ((i + sgn acw) mod 8) ++ step_events i
  end.

(** The tracker's part of the invariant. *)
Definition ring_ok (s : Machine) : Prop :=
  0 <= current_ring_step_position s < R /\ 0 <= current_step_index s < 8.

(** Phase index and position agree modulo 8 (both start at 0, and
    R is a multiple of 8). *)
Definition phase_coupled (s : Machine) : Prop :=
  current_step_index s = current_ring_step_position s mod 8.

(** The signed move the code makes, computed without wrap-around. *)
Definition shortest_delta (raw : Z) : Z :=
  if raw >? R / 2 then raw - R else if raw <? - R / 2 then raw + R else raw.
End WithPlatform.

(** Number of physical steps in a trace: one [delayMicroseconds] each. *)
Fixpoint count_steps (tr : list Event) : nat :=
  match tr with
  | [] => O
  | EvDelayMicroseconds _ :: tr' => S (count_steps tr')
  | _ :: tr' => count_steps tr'
  end.

(** ** Abstract specification of a move to a nail *)

(** A move of [k] steps in direction [dir] from [from] to [to] along a
    shortest arc of the ring of [R] positions: forward covers
    [(to - from) mod R] steps, backward [(from - to) mod R], and the
    arc taken is at most half a revolution.  At exactly half a
    revolution both directions satisfy it. *)
Inductive arc_move (from to : Z) : Z -> bool -> Prop :=
| arc_fwd k : k = (to - from) mod 16384 -> 2 * k <= 16384 -> arc_move from to k true
| arc_bwd k : k = (from - to) mod 16384 -> 2 * k <= 16384 -> arc_move from to k false.

(** The circular distance between two positions. *)
Definition circ_dist (a b : Z) : Z := Z.min ((b - a) mod 16384) ((a - b) mod 16384).

(** ** Lemmas on one step and on the loop *)

Section StepLemmas.
Context `{Platform}.

Lemma R_eq : stepper_steps_per_ring_rotation = R.
Proof. apply stepper_steps_per_ring_rotation_eq. Qed.

Lemma advance_ring_position_spec acw p :
  0 <= p < R -> advance_ring_position acw p = (p + sgn acw) mod R.
Proof.
  unfold advance_ring_position, c_rem, c_add, c_sub, R. rewrite R_eq. unfold R.
  intros. destruct acw; simpl; c_exact; zdiv.
Qed.

Lemma rotate_ring_body_spec acw s : ring_ok s ->
  current_ring_step_position (rotate_ring_body acw s) =
    (current_ring_step_position s + sgn acw) mod R /\
  current_step_index (rotate_ring_body acw s) = (current_step_index s + sgn acw) mod 8 /\
  current_servo_angle (rotate_ring_body acw s) = current_servo_angle s /\
  rx_buffer (rotate_ring_body acw s) = rx_buffer s /\
  trace_rev (rotate_ring_body acw s) = step_events (current_step_index s) ++ trace_rev s.
Proof.
  intros [Hp Hi]. unfold rotate_ring_body. simpl.
  rewrite advance_ring_position_spec by exact Hp.
  repeat split.
  destruct acw; [apply Coil.next_step_index_fwd | apply Coil.next_step_index_bwd]; exact Hi.
Qed.

Lemma ring_ok_next p i acw :
  0 <= (p + sgn acw) mod R < R /\ 0 <= (i + sgn acw) mod 8 < 8.
Proof. split; apply mod_in_range; unfold R; lia. Qed.

Lemma rotate_ring_loop_spec n acw s : ring_ok s ->
  let s' := rotate_ring_loop n acw s in
  current_ring_step_position s' =
    (current_ring_step_position s + Z.of_nat n * sgn acw) mod R /\
  current_step_index s' = (current_step_index s + Z.of_nat n * sgn acw) mod 8 /\
  current_servo_angle s' = current_servo_angle s /\
  rx_buffer s' = rx_buffer s /\
  trace_rev s' = ring_events n acw (current_step_index s) ++ trace_rev s.
Proof.
  revert s. induction n as [|n IH]; intros s Hok; simpl.
  - destruct Hok as [Hp Hi]. rewrite !Z.add_0_r, (Z.mod_small _ R Hp), (Z.mod_small _ 8 Hi).
    repeat split; reflexivity.
  - destruct (rotate_ring_body_spec acw s Hok) as (Hp & Hi & Ha & Hr & Ht).
    assert (Hok' : ring_ok (rotate_ring_body acw s)).
    { unfold ring_ok. rewrite Hp, Hi. apply ring_ok_next. }
    destruct (IH _ Hok') as (Hp' & Hi' & Ha' & Hr' & Ht').
    rewrite Hp', Hi', Ha', Hr', Ht', Hp, Hi, Ht, Ha, Hr, app_assoc.
    rewrite !Zplus_mod_idemp_l.
    repeat split; f_equal; lia.
Qed.

Lemma count_steps_app a b : count_steps (a ++ b) = (count_steps a + count_steps b)%nat.
Proof. induction a as [|e a IH]; [done|]. destruct e; simpl; lia. Qed.

Lemma count_ring_events n acw i : count_steps (ring_events n acw i) = n.
Proof.
  revert i. induction n as [|n IH]; intros i; [done|]. simpl.
  rewrite count_steps_app, IH. simpl. lia.
Qed.

Lemma rotate_ring_count k acw s : ring_ok s ->
  count_steps (trace_rev (rotate_ring k acw s)) =
    (Z.to_nat k + count_steps (trace_rev s))%nat.
Proof.
  intros Hok. unfold rotate_ring.
  destruct (rotate_ring_loop_spec (Z.to_nat k) acw s Hok) as (_ & _ & _ & _ & ->).
  by rewrite count_steps_app, count_ring_events.
Qed.

Lemma rotate_ring_ok k acw s : ring_ok s -> ring_ok (rotate_ring k acw s).
Proof.
  intros Hok. unfold rotate_ring, ring_ok.
  destruct (rotate_ring_loop_spec (Z.to_nat k) acw s Hok) as (-> & -> & _).
  split; apply mod_in_range; unfold R; lia.
Qed.

Lemma half_R_consts :
  c_div stepper_steps_per_ring_rotation 2 = 8192 /\
  c_div (c_neg stepper_steps_per_ring_rotation) 2 = -8192.
Proof.
  rewrite R_eq. unfold c_div, c_neg, R.
  rewrite (wrap_small16 (-16384)) by lia.
  split; apply wrap_small16; compute; intuition discriminate.
Qed.

Lemma wrap_diff_exact raw : -R < raw < R -> wrap_diff raw = shortest_delta raw.
Proof.
  intros Hr. unfold wrap_diff. destruct half_R_consts as [-> ->].
  rewrite R_eq. unfold shortest_delta, c_sub, c_add, R in *.
  change (16384 / 2) with 8192. change (- 16384 / 2) with (-8192).
  rewrite !Z.gtb_ltb.
  destruct (Z.ltb_spec 8192 raw); c_exact;
    repeat match goal with |- context [?a <? ?b] => destruct (Z.ltb_spec a b) end;
    c_exact; zdiv.
Qed.

Lemma shortest_delta_cases raw : -R < raw < R ->
  -8192 <= shortest_delta raw <= 8192 /\
  (shortest_delta raw = raw \/ shortest_delta raw = raw - R \/ shortest_delta raw = raw + R) /\
  (shortest_delta raw = 8192 -> raw = 8192) /\
  (shortest_delta raw = -8192 -> raw = -8192).
Proof.
  unfold shortest_delta, R. intros. rewrite !Z.gtb_ltb.
  change (16384 / 2) with 8192. change (- 16384 / 2) with (-8192).
  repeat match goal with |- context [?a <? ?b] => destruct (Z.ltb_spec a b) end; zdiv.
Qed.

Lemma machine_ok_ring s : machine_ok s -> ring_ok s.
Proof. unfold machine_ok, ring_ok. rewrite R_eq. tauto. Qed.

Lemma rotate_ring_frame k acw s : ring_ok s ->
  current_servo_angle (rotate_ring k acw s) = current_servo_angle s /\
  rx_buffer (rotate_ring k acw s) = rx_buffer s.
Proof.
  intros Hok. unfold rotate_ring.
  destruct (rotate_ring_loop_spec (Z.to_nat k) acw s Hok) as (_ & _ & -> & -> & _). done.
Qed.

Lemma rotate_ring_zero acw s : rotate_ring 0 acw s = s.
Proof. reflexivity. Qed.

(** The move of the abstract specification ends on its target. *)
Lemma arc_move_lands from to k dir :
  0 <= to < R -> arc_move from to k dir -> (from + k * sgn dir) mod R = to.
Proof. unfold R. intros Hto Ha. inversion Ha; subst; simpl; zdiv. Qed.

(** It covers the circular distance, at most half a revolution. *)
Lemma arc_move_dist from to k dir :
  arc_move from to k dir -> k = circ_dist from to /\ 2 * k <= R.
Proof. unfold circ_dist, R. intros Ha. inversion Ha; subst; split; try lia; zdiv. Qed.

Lemma shortest_delta_arc from to :
  0 <= from < R -> 0 <= to < R ->
  arc_move from to (Z.abs (shortest_delta (to - from))) (shortest_delta (to - from) >? 0).
Proof.
  intros Hf Ht. destruct (shortest_delta_cases (to - from)) as (Hb & Hc & _); [unfold R in *; lia|].
  generalize dependent (shortest_delta (to - from)). intros d Hb Hc.
  unfold R in *. rewrite Z.gtb_ltb.
  destruct (Z.ltb_spec 0 d); constructor; zdiv.
Qed.

(** A state whose energized phase is read back from the last step. *)
Lemma coil_state_step_events j rest :
  0 <= j < 8 -> Coil.coil_state (step_events j ++ rest) = map Some (Coil.row j).
Proof. intros Hj. Coil.by_phase j. Qed.
End StepLemmas.

(** ** Theorems on the tracker *)

Section Theorems.
Context `{Platform}.

(** No [int] computation of [rotate_ring_to_nail] wraps. *)
Lemma to_nail_exact n s :
  ring_ok s -> 0 <= n < num_nails ->
  rotate_ring_to_nail n s =
    rotate_ring (Z.abs (shortest_delta (n * 512 - current_ring_step_position s)))
      (shortest_delta (n * 512 - current_ring_step_position s) >? 0) s.
Proof.
  intros [Hp Hi] Hn. unfold rotate_ring_to_nail, num_nails in *.
  rewrite steps_per_nail_eq. unfold c_mul, c_sub, c_abs. unfold R in *.
  rewrite (wrap_small16 (n * 512)) by lia.
  rewrite (wrap_small16 (n * 512 - _)) by lia.
  rewrite wrap_diff_exact by (unfold R; lia).
  destruct (shortest_delta_cases (n * 512 - current_ring_step_position s)) as (Hb & _);
    [unfold R; lia|].
  rewrite (wrap_small16 (Z.abs _)) by lia. reflexivity.
Qed.

Lemma to_nail_refines n s :
  ring_ok s -> 0 <= n < num_nails ->
  exists k dir, arc_move (current_ring_step_position s) (n * steps_per_nail) k dir /\
                rotate_ring_to_nail n s = rotate_ring k dir s.
Proof.
  intros Hok Hn. rewrite steps_per_nail_eq.
  eexists _, _. split; [|exact (to_nail_exact n s Hok Hn)].
  destruct Hok. unfold num_nails, R in *. apply shortest_delta_arc; unfold R; lia.
Qed.

Lemma arc_rotate_ring from k dir s :
  ring_ok s -> from = current_ring_step_position s ->
  forall to, 0 <= to < R -> arc_move from to k dir ->
  current_ring_step_position (rotate_ring k dir s) = to /\
  count_steps (trace_rev (rotate_ring k dir s)) =
    (Z.to_nat (circ_dist from to) + count_steps (trace_rev s))%nat.
Proof.
  intros Hok -> to Hto Ha.
  destruct (arc_move_dist _ _ _ _ Ha) as [Hk Hk2].
  assert (0 <= k) by (rewrite Hk; unfold circ_dist; zdiv).
  split.
  - unfold rotate_ring.
    destruct (rotate_ring_loop_spec (Z.to_nat k) dir s Hok) as (-> & _).
    rewrite Z2Nat.id by lia. by apply arc_move_lands.
  - rewrite rotate_ring_count by exact Hok. by rewrite Hk.
Qed.

Lemma to_nail_lands n s :
  machine_ok s -> 0 <= n < num_nails ->
  current_ring_step_position (rotate_ring_to_nail n s) = n * steps_per_nail /\
  machine_ok (rotate_ring_to_nail n s) /\
  current_servo_angle (rotate_ring_to_nail n s) = current_servo_angle s /\
  rx_buffer (rotate_ring_to_nail n s) = rx_buffer s.
Proof.
  intros Hm Hn. pose proof (machine_ok_ring s Hm) as Hok.
  destruct (to_nail_refines n s Hok Hn) as (k & dir & Ha & ->).
  destruct (rotate_ring_frame k dir s Hok) as [Hang Hrx].
  rewrite steps_per_nail_eq in *. unfold num_nails in Hn.
  destruct (arc_rotate_ring _ k dir s Hok eq_refl (n * 512)) as [Hpos _];
    [unfold R; lia | exact Ha |].
  pose proof (rotate_ring_ok k dir s Hok) as [_ Hi].
  unfold machine_ok in *. rewrite R_eq, Hpos, Hang, Hrx. unfold R. repeat split; try reflexivity; lia.
Qed.

(** C2 (functional): [rotate_ring_to_nail n] issues exactly the circular
    distance [min(|d|, R - |d|)] of physical steps between the current
    position and the nail, never more than half a revolution. *)
Theorem rotate_ring_to_nail_shortest n s :
  machine_ok s -> 0 <= n < num_nails ->
  count_steps (trace_rev (rotate_ring_to_nail n s)) =
    (Z.to_nat (circ_dist (current_ring_step_position s) (n * steps_per_nail))
     + count_steps (trace_rev s))%nat /\
  2 * circ_dist (current_ring_step_position s) (n * steps_per_nail)
    <= stepper_steps_per_ring_rotation.
Proof.
  intros Hm Hn. pose proof (machine_ok_ring s Hm) as Hok.
  destruct (to_nail_refines n s Hok Hn) as (k & dir & Ha & ->).
  rewrite steps_per_nail_eq in *. unfold num_nails in Hn.
  destruct (arc_move_dist _ _ _ _ Ha) as [Hk Hk2]. split.
  - exact (proj2 (arc_rotate_ring _ k dir s Hok eq_refl (n * 512) ltac:(unfold R; lia) Ha)).
  - rewrite R_eq, <- Hk. exact Hk2.
Qed.

(** C19 (functional): a second [rotate_ring_to_nail] to the same nail
    changes nothing: no step, no call, no state change. *)
Theorem rotate_ring_to_nail_idempotent n s :
  machine_ok s -> 0 <= n < num_nails ->
  rotate_ring_to_nail n (rotate_ring_to_nail n s) = rotate_ring_to_nail n s.
Proof.
  intros Hm Hn. destruct (to_nail_lands n s Hm Hn) as (Hp & Hm' & _).
  rewrite (to_nail_exact n _ (machine_ok_ring _ Hm') Hn), Hp, steps_per_nail_eq.
  rewrite Z.sub_diag. reflexivity.
Qed.

Lemma rotate_ring_coupled k acw s :
  ring_ok s -> phase_coupled s -> phase_coupled (rotate_ring k acw s).
Proof.
  intros Hok Hc. unfold phase_coupled, rotate_ring in *.
  destruct (rotate_ring_loop_spec (Z.to_nat k) acw s Hok) as (-> & -> & _).
  rewrite Hc. unfold R. zdiv.
Qed.

Lemma rotate_ring_one acw s : rotate_ring 1 acw s = rotate_ring_body acw s.
Proof. reflexivity. Qed.

(** C1 (functional): from any valid state, [rotate_ring_to_nail n] for a
    nail in [0, 32) leaves the ring exactly at [n * steps_per_nail],
    keeps the state valid, and does not touch the servo angle or the
    serial input. *)
Theorem rotate_ring_to_nail_lands n s :
  machine_ok s -> 0 <= n < num_nails ->
  current_ring_step_position (rotate_ring_to_nail n s) = n * steps_per_nail /\
  machine_ok (rotate_ring_to_nail n s) /\
  current_servo_angle (rotate_ring_to_nail n s) = current_servo_angle s /\
  rx_buffer (rotate_ring_to_nail n s) = rx_buffer s.
Proof. apply to_nail_lands. Qed.

(** C3 (refinement): [rotate_ring_to_nail] implements the abstract
    specification [arc_move] of a nail move: it is [rotate_ring k dir]
    for a [k] and [dir] that form a shortest arc from the current
    position to the nail's position. *)
Theorem rotate_ring_to_nail_refines n s :
  ring_ok s -> 0 <= n < num_nails ->
  exists k dir, arc_move (current_ring_step_position s) (n * steps_per_nail) k dir /\
                rotate_ring_to_nail n s = rotate_ring k dir s.
Proof. apply to_nail_refines. Qed.

(** C8 (invariant): the phase index and the ring position move together:
    if the index equals the position modulo 8 before a rotation, it
    does after it, in either direction and for any step count. *)
Theorem rotate_ring_phase_coupled k acw s :
  ring_ok s -> phase_coupled s -> phase_coupled (rotate_ring k acw s).
Proof. apply rotate_ring_coupled. Qed.

(** C16 (bounds): on every platform ([int] of at least 16 bits), none of
    the [int] computations of [rotate_ring_to_nail] wraps for a nail in
    [0, 32) and a valid position: the call is exactly [rotate_ring]
    by the absolute value of the unbounded shortest delta, in the
    direction of its sign. *)
Theorem rotate_ring_to_nail_exact n s :
  ring_ok s -> 0 <= n < num_nails ->
  rotate_ring_to_nail n s =
    rotate_ring (Z.abs (shortest_delta (n * 512 - current_ring_step_position s)))
      (shortest_delta (n * 512 - current_ring_step_position s) >? 0) s.
Proof. apply to_nail_exact. Qed.

(** C12 (functional, finding): the coils are written with the phase the
    index held before the step, so a reversal first drives the motor
    one more half-step the old way.  Stepping forward then back, or
    back then forward, restores the tracked position and phase index,
    but leaves the coils holding phases two half-steps apart
    ([i + 1] and [i - 1]): the rotor and the counter drift by two
    half-steps at every change of direction. *)
Theorem reversal_drift s :
  ring_ok s ->
  let fb := rotate_ring 1 false (rotate_ring 1 true s) in
  let bf := rotate_ring 1 true (rotate_ring 1 false s) in
  current_ring_step_position fb = current_ring_step_position s /\
  current_ring_step_position bf = current_ring_step_position s /\
  current_step_index fb = current_step_index s /\
  current_step_index bf = current_step_index s /\
  Coil.coil_state (trace_rev fb) = map Some (Coil.row ((current_step_index s + 1) mod 8)) /\
  Coil.coil_state (trace_rev bf) = map Some (Coil.row ((current_step_index s - 1) mod 8)).
Proof.
  intros Hok. cbv zeta. rewrite !rotate_ring_one.
  destruct Hok as [Hp Hi].
  destruct (rotate_ring_body_spec true s (conj Hp Hi)) as (Hp1 & Hi1 & _ & _ & Ht1).
  destruct (rotate_ring_body_spec false s (conj Hp Hi)) as (Hp2 & Hi2 & _ & _ & Ht2).
  assert (Hok1 : ring_ok (rotate_ring_body true s)) by (red; rewrite Hp1, Hi1; apply ring_ok_next).
  assert (Hok2 : ring_ok (rotate_ring_body false s)) by (red; rewrite Hp2, Hi2; apply ring_ok_next).
  destruct (rotate_ring_body_spec false _ Hok1) as (Hp3 & Hi3 & _ & _ & Ht3).
  destruct (rotate_ring_body_spec true _ Hok2) as (Hp4 & Hi4 & _ & _ & Ht4).
  rewrite Hp3, Hi3, Ht3, Hp4, Hi4, Ht4, Hp1, Hi1, Hp2, Hi2.
  unfold R in *; simpl sgn.
  rewrite !coil_state_step_events by (apply mod_in_range; lia).
  repeat split; zdiv.
Qed.

(** C14 (functional, finding): at exactly half a revolution the code
    does not pick one direction: the [>] and [<] tests leave the raw
    difference unchanged, so going from position 0 to nail 16 turns
    forward (anti-clockwise) while going from position 8192 to nail 0
    turns backward, each by 8192 steps. *)
Theorem half_turn_direction_depends_on_side s :
  ring_ok s ->
  (current_ring_step_position s = 0 -> rotate_ring_to_nail 16 s = rotate_ring 8192 true s) /\
  (current_ring_step_position s = 8192 -> rotate_ring_to_nail 0 s = rotate_ring 8192 false s).
Proof.
  intros Hok. split; intros Hp;
    rewrite (to_nail_exact _ s Hok) by (unfold num_nails; lia); rewrite Hp; reflexivity.
Qed.

(** C23 (functional): the scenario of the specification: from position
    0, [rotate_ring_to_nail 31] wraps the raw difference 15872 to
    -512 and issues 512 backward steps, landing at 15872. *)
Theorem rotate_ring_to_nail_31_from_0 s :
  ring_ok s -> current_ring_step_position s = 0 ->
  rotate_ring_to_nail 31 s = rotate_ring 512 false s /\
  current_ring_step_position (rotate_ring_to_nail 31 s) = 15872.
Proof.
  intros Hok Hp.
  assert (E : rotate_ring_to_nail 31 s = rotate_ring 512 false s)
    by (rewrite (to_nail_exact _ s Hok) by (unfold num_nails; lia); rewrite Hp; reflexivity).
  rewrite E. split; [reflexivity|].
  unfold rotate_ring. destruct (rotate_ring_loop_spec (Z.to_nat 512) false s Hok) as (-> & _).
  rewrite Hp. reflexivity.
Qed.
(** C24 (roundtrip): [k] steps one way then [k] steps the other way
    bring the tracked position and the coil phase index back to where
    they were (the arm untouched), after [2k] physical steps. *)
Theorem rotate_ring_roundtrip k acw s :
  ring_ok s -> 0 <= k ->
  let s' := rotate_ring k (negb acw) (rotate_ring k acw s) in
  current_ring_step_position s' = current_ring_step_position s /\
  current_step_index s' = current_step_index s /\
  current_servo_angle s' = current_servo_angle s /\
  count_steps (trace_rev s') = (2 * Z.to_nat k + count_steps (trace_rev s))%nat.
Proof.
  intros Hok Hk. cbv zeta. pose proof (rotate_ring_ok k acw s Hok) as Hok1.
  rewrite (rotate_ring_count _ _ _ Hok1), (rotate_ring_count _ _ _ Hok).
  unfold rotate_ring in *.
  destruct (rotate_ring_loop_spec (Z.to_nat k) acw s Hok) as (Hp1 & Hi1 & Ha1 & _).
  destruct (rotate_ring_loop_spec (Z.to_nat k) (negb acw) _ Hok1) as (Hp2 & Hi2 & Ha2 & _).
  rewrite Hp2, Hi2, Ha2, Hp1, Hi1, Ha1, !Zplus_mod_idemp_l, Z2Nat.id by lia.
  assert (Hs : forall x, x + k * sgn acw + k * sgn (negb acw) = x) by (destruct acw; simpl; lia).
  rewrite !Hs. destruct Hok as [Hp Hi].
  rewrite (Z.mod_small _ R Hp), (Z.mod_small _ 8 Hi). repeat split; lia.
Qed.
End Theorems.

(** ** Witnesses: the theorems applied on the Pico at power-on *)

Section Witnesses.
#[local] Existing Instance rp2040.

Lemma rotate_ring_to_nail_lands_witness :
  machine_ok machine_init /\ 0 <= 31 < num_nails /\
  current_ring_step_position (rotate_ring_to_nail 31 machine_init) = 31 * steps_per_nail.
Proof.
  assert (Hm : machine_ok machine_init) by (apply machine_okb_spec; vm_compute; reflexivity).
  assert (Hn : 0 <= 31 < num_nails) by (unfold num_nails; lia).
  split; [exact Hm|split; [exact Hn|]].
  exact (proj1 (rotate_ring_to_nail_lands 31 machine_init Hm Hn)).
Defined.

Lemma rotate_ring_to_nail_shortest_witness :
  count_steps (trace_rev (rotate_ring_to_nail 20 machine_init)) =
    (Z.to_nat (circ_dist 0 (20 * steps_per_nail)) + 0)%nat.
Proof.
  apply (proj1 (rotate_ring_to_nail_shortest 20 machine_init
    ltac:(apply machine_okb_spec; vm_compute; reflexivity) ltac:(unfold num_nails; lia))).
Defined.

Lemma rotate_ring_to_nail_refines_witness :
  exists k dir, arc_move 0 (7 * steps_per_nail) k dir /\
                rotate_ring_to_nail 7 machine_init = rotate_ring k dir machine_init.
Proof.
  apply (rotate_ring_to_nail_refines 7 machine_init
    ltac:(split; simpl; unfold R; lia) ltac:(unfold num_nails; lia)).
Defined.

Lemma rotate_ring_to_nail_idempotent_witness :
  rotate_ring_to_nail 12 (rotate_ring_to_nail 12 machine_init) =
    rotate_ring_to_nail 12 machine_init.
Proof.
  apply (rotate_ring_to_nail_idempotent 12 machine_init
    ltac:(apply machine_okb_spec; vm_compute; reflexivity) ltac:(unfold num_nails; lia)).
Defined.

Lemma rotate_ring_phase_coupled_witness :
  phase_coupled (rotate_ring 1000 false machine_init).
Proof.
  apply (rotate_ring_phase_coupled 1000 false machine_init
    ltac:(split; simpl; unfold R; lia) ltac:(reflexivity)).
Defined.

Lemma rotate_ring_to_nail_exact_witness :
  rotate_ring_to_nail 9 machine_init =
    rotate_ring (Z.abs (shortest_delta (9 * 512 - 0))) (shortest_delta (9 * 512 - 0) >? 0)
      machine_init.
Proof.
  apply (rotate_ring_to_nail_exact 9 machine_init
    ltac:(split; simpl; unfold R; lia) ltac:(unfold num_nails; lia)).
Defined.

Lemma reversal_drift_witness :
  Coil.coil_state (trace_rev (rotate_ring 1 false (rotate_ring 1 true machine_init))) =
    map Some (Coil.row ((0 + 1) mod 8)) /\
  Coil.coil_state (trace_rev (rotate_ring 1 true (rotate_ring 1 false machine_init))) =
    map Some (Coil.row ((0 - 1) mod 8)).
Proof.
  destruct (reversal_drift machine_init ltac:(split; simpl; unfold R; lia))
    as (_ & _ & _ & _ & H1 & H2).
  split; [exact H1 | exact H2].
Defined.

Lemma half_turn_direction_depends_on_side_witness :
  rotate_ring_to_nail 16 machine_init = rotate_ring 8192 true machine_init.
Proof.
  apply (proj1 (half_turn_direction_depends_on_side machine_init
    ltac:(split; simpl; unfold R; lia)) eq_refl).
Defined.

Lemma rotate_ring_to_nail_31_from_0_witness :
  rotate_ring_to_nail 31 machine_init = rotate_ring 512 false machine_init.
Proof.
  apply (proj1 (rotate_ring_to_nail_31_from_0 machine_init
    ltac:(split; simpl; unfold R; lia) eq_refl)).
Defined.
Lemma rotate_ring_roundtrip_witness :
  current_ring_step_position (rotate_ring 3 false (rotate_ring 3 true machine_init)) = 0 /\
  current_step_index (rotate_ring 3 false (rotate_ring 3 true machine_init)) = 0.
Proof.
  destruct (rotate_ring_roundtrip 3 true machine_init ltac:(unfold ring_ok, R; simpl; lia) ltac:(lia))
    as (Hp & Hi & _).
  split; [exact Hp|exact Hi].
Defined.
End Witnesses.

End Ring.
