(* ===== verification/Servo.v ===== *)
(** The arm actuator: [moveServo] (main.cpp 54-69).  Its [while] loop
    moves [current_servo_angle] one degree per iteration toward the
    target, writing each angle to the servo and pausing 5 ms, and then
    holds for [SERVO_DELAY_MS].  The loop is modelled with fuel
    [servo_loop_fuel]; the theorems show that from a valid angle to a
    valid target the fuel is never exhausted. *)

From S2P Require Import Prelude CInt Config Machine.

Module Servo.

Local Open Scope sa_scope.

(** From an angle in [0, 180] to a target in [0, 180] the loop tests
    its condition at most 181 times. *)
Definition servo_loop_fuel : nat := 181.

Definition servo_error_msg : string := "Error: angle outside range (0-180deg).".

Section WithPlatform.
Context `{Platform}.

(** Lines 62-66: [while (current_servo_angle != targetAngle)]. *)
Fixpoint servo_loop (fuel : nat) (step_direction targetAngle : Z) (s : Machine)
  : option Machine :=
  match fuel with
  | O => None
  | S fuel' =>
      if current_servo_angle s =? targetAngle then Some s
      else
        let a := c_add (current_servo_angle s) step_direction in
        servo_loop fuel' step_direction targetAngle
          (delay 5 (servo_write a (set_servo_angle a s)))
  end.

(** Lines 54-69. *)
Definition moveServo (targetAngle : Z) : cmd Machine := fun s =>
  if (targetAngle <? 0) || (targetAngle >? 180) then
    Some (serial_println (MsgText servo_error_msg) s)
  else
    let step_direction := if targetAngle >? current_servo_angle s then 1 else -1 in
    match servo_loop servo_loop_fuel step_direction targetAngle s with
    | Some s' => Some (delay SERVO_DELAY_MS s')
    | None => None
    end.
End WithPlatform.

(** The calls of [n] iterations of the loop from angle [a], newest
    first. *)
Fixpoint sweep_events (n : nat) (dir a : Z) : list Event :=
  match n with
  | O => []
  | S n' => sweep_events n' dir (a + dir) ++ [EvDelay 5; EvServoWrite (a + dir)]
  end.

(** The angles written to the servo in a trace, newest first. *)
Fixpoint servo_writes (tr : list Event) : list Z :=
  match tr with
  | [] => []
  | EvServoWrite a :: tr' => a :: servo_writes tr'
  | _ :: tr' => servo_writes tr'
  end.

(** ** Lemmas *)

Lemma servo_writes_app a b : servo_writes (a ++ b) = servo_writes a ++ servo_writes b.
Proof. induction a as [|e a IH]; [done|]. destruct e; simpl; by rewrite ?IH. Qed.

(** The sweep writes [a + dir, a + 2 dir, ..., a + n dir] in this order. *)
Lemma servo_writes_sweep n dir a :
  servo_writes (sweep_events n dir a) = rev (map (fun k => a + Z.of_nat k * dir) (seq 1 n)).
Proof.
  revert a. induction n as [|n IH]; intros a; [done|].
  simpl. rewrite servo_writes_app, IH. simpl.
  rewrite <- (seq_shift n 1), map_map. f_equal; [f_equal; apply map_ext; intros; lia|f_equal; lia].
Qed.

Section LoopLemmas.
Context `{Platform}.

(** Enough fuel: [n] iterations toward the target, [n] its distance. *)
Lemma servo_loop_runs n fuel dir t s :
  (n < fuel)%nat -> (dir = 1 \/ dir = -1) ->
  t - current_servo_angle s = Z.of_nat n * dir ->
  0 <= current_servo_angle s <= 180 -> 0 <= t <= 180 ->
  exists s', servo_loop fuel dir t s = Some s' /\
    current_servo_angle s' = t /\
    current_ring_step_position s' = current_ring_step_position s /\
    current_step_index s' = current_step_index s /\
    rx_buffer s' = rx_buffer s /\
    trace_rev s' = sweep_events n dir (current_servo_angle s) ++ trace_rev s.
Proof.
  revert fuel s. induction n as [|n IH]; intros fuel s Hf Hd Hn Ha Ht;
    (destruct fuel as [|fuel]; [lia|]); simpl.
  - rewrite (proj2 (Z.eqb_eq _ _)) by lia. eexists; repeat split; lia.
  - rewrite (proj2 (Z.eqb_neq _ _)) by lia.
    unfold c_add. rewrite wrap_small16 by lia.
    destruct (IH fuel (delay 5 (servo_write (current_servo_angle s + dir)
                (set_servo_angle (current_servo_angle s + dir) s))))
      as (s' & E & Hs'); simpl; try lia.
    exists s'. rewrite E. destruct Hs' as (? & ? & ? & ? & ->). simpl.
    repeat split; try done. by rewrite <- app_assoc.
Qed.

Lemma servo_loop_distance a t :
  0 <= a <= 180 -> 0 <= t <= 180 ->
  t - a = Z.of_nat (Z.to_nat (Z.abs (t - a))) * (if t >? a then 1 else -1) /\
  (Z.to_nat (Z.abs (t - a)) < servo_loop_fuel)%nat.
Proof.
  unfold servo_loop_fuel. intros. rewrite Z2Nat.id by lia. rewrite Z.gtb_ltb.
  destruct (Z.ltb_spec a t); lia.
Qed.

Lemma move_servo_in_range t s :
  0 <= t <= 180 -> moveServo t s =
    let dir := if t >? current_servo_angle s then 1 else -1 in
    match servo_loop servo_loop_fuel dir t s with
    | Some s' => Some (delay SERVO_DELAY_MS s')
    | None => None
    end.
Proof.
  intros Ht. unfold moveServo.
  rewrite (proj2 (Z.ltb_ge _ _)) by lia. rewrite Z.gtb_ltb, (proj2 (Z.ltb_ge _ _)) by lia.
  reflexivity.
Qed.

(** At the target, the loop exits at once, whatever the fuel left. *)
Lemma servo_loop_at_target fuel dir t s :
  current_servo_angle s = t -> servo_loop (S fuel) dir t s = Some s.
Proof. intros Ha. simpl. by rewrite Ha, Z.eqb_refl. Qed.

(** What a call with a valid target does, as the planner needs it. *)
Lemma move_servo_ok t s :
  machine_ok s -> 0 <= t <= 180 ->
  let a := current_servo_angle s in
  exists s', moveServo t s = Some s' /\
    current_servo_angle s' = t /\
    current_ring_step_position s' = current_ring_step_position s /\
    current_step_index s' = current_step_index s /\
    rx_buffer s' = rx_buffer s /\
    machine_ok s' /\
    trace_rev s' = EvDelay SERVO_DELAY_MS
                     :: sweep_events (Z.to_nat (Z.abs (t - a))) (if t >? a then 1 else -1) a
                     ++ trace_rev s.
Proof.
  intros Hm Ht a. pose proof Hm as (Hp & Hi & Ha).
  destruct (servo_loop_distance a t Ha Ht) as [Hd Hf].
  destruct (servo_loop_runs (Z.to_nat (Z.abs (t - a))) servo_loop_fuel
              (if t >? a then 1 else -1) t s Hf) as (s' & E & Ha' & Hp' & Hi' & Hr' & Ht');
    [destruct (t >? a); auto | exact Hd | exact Ha | exact Ht |].
  rewrite move_servo_in_range by exact Ht. cbv zeta. fold a. rewrite E.
  eexists; split; [reflexivity|]. simpl.
  unfold machine_ok in *. cbn [delay emit current_ring_step_position current_step_index current_servo_angle rx_buffer trace_rev].
  rewrite Ha', Hp', Hi', Hr', Ht'. repeat split; try done; lia.
Qed.
End LoopLemmas.

Section Theorems.
Context `{Platform}.

(** C6 (termination): from a valid state, [moveServo t] with [t] in
    [0, 180] terminates within the fuel, leaves the servo at [t], keeps
    the ring and the coils untouched, and records the sweep of
    [|t - angle|] one-degree writes followed by the 500 ms settle
    delay. *)
Theorem moveServo_reaches t s :
  machine_ok s -> 0 <= t <= 180 ->
  let a := current_servo_angle s in
  exists s', moveServo t s = Some s' /\
    current_servo_angle s' = t /\
    current_ring_step_position s' = current_ring_step_position s /\
    current_step_index s' = current_step_index s /\
    rx_buffer s' = rx_buffer s /\
    machine_ok s' /\
    trace_rev s' = EvDelay SERVO_DELAY_MS
                     :: sweep_events (Z.to_nat (Z.abs (t - a))) (if t >? a then 1 else -1) a
                     ++ trace_rev s.
Proof. apply move_servo_ok. Qed.

(** C11 (error): a target below 0 or above 180 is reported on the
    console and nothing else happens: no servo write, no delay, the
    angle and the rest of the state unchanged; the caller is not told
    (the result is the same [Some] as a successful move). *)
Theorem moveServo_rejects t s :
  t < 0 \/ 180 < t ->
  moveServo t s = Some (serial_println (MsgText servo_error_msg) s).
Proof.
  intros Ht. unfold moveServo.
  destruct Ht as [Ht|Ht].
  - by rewrite (proj2 (Z.ltb_lt _ _) Ht).
  - rewrite Z.gtb_ltb, (proj2 (Z.ltb_lt _ _) Ht), orb_true_r. reflexivity.
Qed.

(** C20 (functional): a move to the current angle performs no
    interpolation step but still holds for the settle delay. *)
Theorem moveServo_same_angle t s :
  current_servo_angle s = t -> 0 <= t <= 180 ->
  moveServo t s = Some (delay SERVO_DELAY_MS s).
Proof.
  intros Ha Ht. rewrite move_servo_in_range by exact Ht. cbv zeta.
  unfold servo_loop_fuel. by rewrite servo_loop_at_target.
Qed.

(** C21 (bounds): the angles [moveServo t] writes to the servo are
    [a + d, a + 2d, ..., t] for [d = +1] or [-1]: exactly [|t - a|]
    writes, one degree apart, all inside the servo's range [0, 180]. *)
Theorem moveServo_writes t s :
  machine_ok s -> 0 <= t <= 180 ->
  let a := current_servo_angle s in
  let d := if t >? a then 1 else -1 in
  exists s', moveServo t s = Some s' /\
    servo_writes (trace_rev s') =
      rev (map (fun k => a + Z.of_nat k * d) (seq 1 (Z.to_nat (Z.abs (t - a)))))
      ++ servo_writes (trace_rev s) /\
    Forall (fun x => 0 <= x <= 180)
      (map (fun k => a + Z.of_nat k * d) (seq 1 (Z.to_nat (Z.abs (t - a))))).
Proof.
  intros Hm Ht a d. pose proof Hm as (_ & _ & Ha).
  destruct (move_servo_ok t s Hm Ht) as (s' & E & _ & _ & _ & _ & _ & Htr).
  exists s'. split; [exact E|]. split.
  - rewrite Htr. simpl. by rewrite servo_writes_app, servo_writes_sweep.
  - apply Forall_forall. intros x Hx.
    apply in_map_iff in Hx as (k & <- & Hk). apply in_seq in Hk.
    subst a d. rewrite Z.gtb_ltb.
    destruct (Z.ltb_spec (current_servo_angle s) t); lia.
Qed.
End Theorems.

Section Witnesses.
#[local] Existing Instance rp2040.

Lemma moveServo_reaches_witness :
  exists s', moveServo 120 machine_init = Some s' /\ current_servo_angle s' = 120.
Proof.
  destruct (moveServo_reaches 120 machine_init
    ltac:(apply machine_okb_spec; vm_compute; reflexivity) ltac:(lia))
    as (s' & E & Ha & _).
  exists s'. split; [exact E | exact Ha].
Defined.

Lemma moveServo_rejects_witness :
  moveServo 200 machine_init = Some (serial_println (MsgText servo_error_msg) machine_init).
Proof. apply (moveServo_rejects 200 machine_init ltac:(lia)). Defined.

Lemma moveServo_same_angle_witness :
  moveServo 90 machine_init = Some (delay SERVO_DELAY_MS machine_init).
Proof. apply (moveServo_same_angle 90 machine_init ltac:(reflexivity) ltac:(lia)). Defined.

Lemma moveServo_writes_witness :
  exists s', moveServo 60 machine_init = Some s' /\
    servo_writes (trace_rev s') =
      rev (map (fun k => 90 + Z.of_nat k * -1) (seq 1 30)) ++ [].
Proof.
  destruct (moveServo_writes 60 machine_init
    ltac:(apply machine_okb_spec; vm_compute; reflexivity) ltac:(lia))
    as (s' & E & Hw & _).
  exists s'. split; [exact E | exact Hw].
Defined.
End Witnesses.

End Servo.
