(* ===== verification/Planner.v ===== *)
(** The plot planner: [plot_around_nail] (main.cpp 88-93) and the
    drawing loop of [loop] (145-150).  The planner is written against two
    interfaces, [RingDriver] (what the tracker promises: a nail move lands
    on the nail and keeps the state valid) and [ArmDriver] (what the
    actuator promises: a move to a valid angle terminates there).  The
    planner's theorems are proved from these laws only; the instances
    [ring_driver] and [arm_driver] discharge them with the theorems of
    [Ring] and [Servo]. *)

From S2P Require Import Prelude CInt Config Machine Coil Ring Servo.

Local Open Scope sa_scope.

(** What the ring position tracker promises to its callers. *)
Class RingDriver `{Platform} := {
  goto_nail : Z -> Machine -> Machine;
  goto_nail_lands : forall n s, machine_ok s -> 0 <= n < num_nails ->
    current_ring_step_position (goto_nail n s) = n * steps_per_nail /\
    machine_ok (goto_nail n s) /\
    current_servo_angle (goto_nail n s) = current_servo_angle s /\
    rx_buffer (goto_nail n s) = rx_buffer s
}.

(** What the arm actuator promises to its callers. *)
Class ArmDriver `{Platform} := {
  move_arm : Z -> cmd Machine;
  move_arm_reaches : forall t s, machine_ok s -> 0 <= t <= 180 ->
    exists s', move_arm t s = Some s' /\
      current_servo_angle s' = t /\
      current_ring_step_position s' = current_ring_step_position s /\
      rx_buffer s' = rx_buffer s /\
      machine_ok s'
}.

#[export] Instance ring_driver `{Platform} : RingDriver :=
  {| goto_nail := Ring.rotate_ring_to_nail; goto_nail_lands := Ring.to_nail_lands |}.

Lemma arm_driver_law `{Platform} t s :
  machine_ok s -> 0 <= t <= 180 ->
  exists s', Servo.moveServo t s = Some s' /\
    current_servo_angle s' = t /\
    current_ring_step_position s' = current_ring_step_position s /\
    rx_buffer s' = rx_buffer s /\
    machine_ok s'.
Proof.
  intros Hm Ht. destruct (Servo.move_servo_ok t s Hm Ht) as (s' & E & Ha & Hp & _ & Hr & Hm' & _).
  eauto 6.
Qed.

#[export] Instance arm_driver `{Platform} : ArmDriver :=
  {| move_arm := Servo.moveServo; move_arm_reaches := arm_driver_law |}.

Module Planner.

Section Planner.
Context `{Platform} `{!RingDriver} `{!ArmDriver}.

(** Lines 88-93: put the nail under the arm, swing outside, advance the
    ring one nail, swing inside. *)
Definition plot_around_nail (nail_idx : Z) : cmd Machine :=
  do! (goto_nail nail_idx) ;;
  move_arm servo_outside_angle ;;
  do! (goto_nail (c_rem (c_add nail_idx 1) num_nails)) ;;
  move_arm servo_inside_angle.

(** [double_bounce_star_sequence[i]]. *)
Definition seq_at (i : Z) : Z := nth (Z.to_nat i) double_bounce_star_sequence 0.

(** Lines 146-149: one iteration of the drawing loop. *)
Definition draw_step (i : Z) : cmd Machine :=
  do! (serial_print (MsgText "    going to next nail - num ")) ;;
  do! (serial_println (MsgInt (seq_at i))) ;;
  plot_around_nail (seq_at i).

(** [n] iterations from index [i]. *)
Fixpoint draw_from (n : nat) (i : Z) : cmd Machine :=
  match n with
  | O => fun s => Some s
  | S n' => draw_step i ;; draw_from n' (i + 1)
  end.

(** Line 145: [for (int i=1; i<double_bounce_star_sequence_len; i++)]. *)
Definition draw : cmd Machine :=
  draw_from (Z.to_nat (double_bounce_star_sequence_len - 1)) 1.

(** ** Lemmas from the interface laws *)

Lemma next_nail i : 0 <= i < 32 -> c_rem (c_add i 1) num_nails = (i + 1) mod 32.
Proof.
  intros. unfold c_rem, c_add, num_nails.
  rewrite (wrap_small16 (i + 1)) by lia. rewrite rem_nonneg by lia.
  apply wrap_small16. pose proof (mod_in_range (i + 1) 32). lia.
Qed.

Lemma plot_around_nail_ok n s :
  machine_ok s -> 0 <= n < num_nails ->
  exists s', plot_around_nail n s = Some s' /\
    current_ring_step_position s' = ((n + 1) mod 32) * 512 /\
    current_servo_angle s' = 120 /\
    rx_buffer s' = rx_buffer s /\
    machine_ok s'.
Proof.
  intros Hm Hn. unfold plot_around_nail. rewrite cmd_lift_seq.
  destruct (goto_nail_lands n s Hm Hn) as (_ & Hm1 & _ & Hr1).
  destruct (move_arm_reaches servo_outside_angle _ Hm1) as (s2 & E2 & _ & _ & Hr2 & Hm2);
    [rewrite servo_outside_angle_eq; lia|].
  rewrite (cmd_seq_Some _ _ _ _ E2), cmd_lift_seq.
  unfold num_nails in Hn. rewrite next_nail by lia.
  destruct (goto_nail_lands ((n + 1) mod 32) s2 Hm2) as (Hp3 & Hm3 & _ & Hr3);
    [unfold num_nails; apply mod_in_range; lia|].
  destruct (move_arm_reaches servo_inside_angle _ Hm3) as (s4 & E4 & Ha4 & Hp4 & Hr4 & Hm4);
    [rewrite servo_inside_angle_eq; lia|].
  exists s4. refine (conj E4 (conj _ (conj _ (conj _ Hm4)))).
  - by rewrite Hp4, Hp3, steps_per_nail_eq.
  - by rewrite Ha4, servo_inside_angle_eq.
  - by rewrite Hr4, Hr3, Hr2, Hr1.
Qed.

Lemma seq_at_range i : 0 <= i < 17 -> 0 <= seq_at i < num_nails.
Proof.
  intros Hi. unfold num_nails.
  assert (Hc : i = 0 \/ i = 1 \/ i = 2 \/ i = 3 \/ i = 4 \/ i = 5 \/ i = 6 \/ i = 7 \/ i = 8 \/
               i = 9 \/ i = 10 \/ i = 11 \/ i = 12 \/ i = 13 \/ i = 14 \/ i = 15 \/ i = 16) by lia.
  repeat destruct Hc as [-> | Hc]; subst; vm_compute; split; congruence.
Qed.

Lemma draw_from_ok n i s :
  machine_ok s -> 1 <= i -> i + Z.of_nat n <= 17 ->
  exists s', draw_from n i s = Some s' /\ machine_ok s' /\
    rx_buffer s' = rx_buffer s /\
    (n <> O -> current_ring_step_position s' =
                 ((seq_at (i + Z.of_nat n - 1) + 1) mod 32) * 512 /\
               current_servo_angle s' = 120).
Proof.
  revert i s. induction n as [|n IH]; intros i s Hm Hi Hn.
  - exists s. split; [done|split; [exact Hm|split; [done|]]]. by intros [].
  - simpl. unfold draw_step. rewrite cmd_seq_assoc, cmd_lift_seq, cmd_seq_assoc, cmd_lift_seq.
    set (s0 := serial_println (MsgInt (seq_at i)) (serial_print (MsgText "    going to next nail - num ") s)).
    assert (Hm0 : machine_ok s0) by exact Hm.
    destruct (plot_around_nail_ok (seq_at i) s0 Hm0) as (s1 & E1 & Hp1 & Ha1 & Hr1 & Hm1);
      [apply seq_at_range; lia|].
    rewrite (cmd_seq_Some _ _ _ _ E1).
    destruct (IH (i + 1) s1 Hm1) as (s2 & E2 & Hm2 & Hr2 & Hl); [lia|lia|].
    exists s2. rewrite E2. split; [done|split; [done|split; [by rewrite Hr2, Hr1|]]].
    intros _. destruct n as [|n'].
    + simpl in E2. injection E2 as <-. rewrite Hp1, Ha1. split; [repeat f_equal; lia|done].
    + destruct Hl as [Hp2 Ha2]; [done|]. rewrite Hp2, Ha2.
      replace (i + 1 + Z.of_nat (S n') - 1) with (i + Z.of_nat (S (S n')) - 1) by lia. done.
Qed.

(** C18 (functional): against the interfaces alone, [plot_around_nail n]
    for a nail in [0, 32) terminates from any valid state and leaves the
    ring on the next nail [(n + 1) mod 32] and the arm inside (120
    degrees), with the state valid and the serial input untouched. *)
Theorem plot_around_nail_spec n s :
  machine_ok s -> 0 <= n < num_nails ->
  exists s', plot_around_nail n s = Some s' /\
    current_ring_step_position s' = ((n + 1) mod 32) * 512 /\
    current_servo_angle s' = 120 /\
    rx_buffer s' = rx_buffer s /\
    machine_ok s'.
Proof. apply plot_around_nail_ok. Qed.

(** C15 (functional, finding): against the interfaces, the whole drawing
    loop terminates and leaves the ring on nail 1 (position 512), not on
    nail 0 as the specification's end-to-end scenario says: the last
    [plot_around_nail 0] advances the ring to nail [(0 + 1) mod 32]. *)
Theorem draw_ends_on_nail_1 s :
  machine_ok s ->
  exists s', draw s = Some s' /\
    current_ring_step_position s' = 1 * steps_per_nail /\
    current_servo_angle s' = servo_inside_angle /\
    machine_ok s'.
Proof.
  intros Hm. unfold draw.
  destruct (draw_from_ok 16 1 s Hm) as (s' & E & Hm' & _ & Hl); [lia|lia|].
  destruct Hl as [Hp Ha]; [done|].
  exists s'. rewrite steps_per_nail_eq, servo_inside_angle_eq. split; [exact E|].
  split; [rewrite Hp; reflexivity|]. split; [exact Ha|exact Hm'].
Qed.
End Planner.

(** ** The weave with the concrete tracker and actuator *)

Section Weave.
Context `{Platform}.

Lemma next_nail_delta n :
  0 <= n < 32 -> Ring.shortest_delta (((n + 1) mod 32) * 512 - n * 512) = 512.
Proof.
  intros Hn. destruct (Z.eq_dec n 31) as [->|Hne]; [reflexivity|].
  rewrite Z.mod_small by lia. replace ((n + 1) * 512 - n * 512) with 512 by lia.
  reflexivity.
Qed.

(** C7 (equivalence): with the sketch's tracker and actuator,
    [plot_around_nail n] is exactly: move to nail [n], swing outside,
    turn 512 steps forward (anti-clockwise), swing inside.  The move
    between the two swings is always one nail in the forward direction,
    never the long way round, nail 31 to nail 0 included: this is the
    over-under weave around nail [n]. *)
Theorem plot_around_nail_weave n s :
  machine_ok s -> 0 <= n < num_nails ->
  plot_around_nail n s =
    (do! (Ring.rotate_ring_to_nail n) ;;
     Servo.moveServo servo_outside_angle ;;
     do! (Ring.rotate_ring 512 true) ;;
     Servo.moveServo servo_inside_angle) s.
Proof.
  intros Hm Hn. unfold plot_around_nail. cbn [goto_nail move_arm ring_driver arm_driver].
  rewrite !cmd_lift_seq.
  destruct (Ring.to_nail_lands n s Hm Hn) as (Hp1 & Hm1 & _).
  destruct (Servo.move_servo_ok servo_outside_angle _ Hm1)
    as (s2 & E2 & _ & Hp2 & _ & _ & Hm2 & _); [rewrite servo_outside_angle_eq; lia|].
  rewrite !(cmd_seq_Some _ _ _ _ E2), !cmd_lift_seq.
  unfold num_nails in Hn. rewrite next_nail by lia.
  rewrite (Ring.to_nail_exact _ s2 (Ring.machine_ok_ring _ Hm2)) by (unfold num_nails; apply mod_in_range; lia).
  rewrite Hp2, Hp1, steps_per_nail_eq, next_nail_delta by lia. reflexivity.
Qed.
End Weave.

(** ** Witnesses on the Pico at power-on *)

Section Witnesses.
#[local] Existing Instance rp2040.

Lemma plot_around_nail_spec_witness :
  exists s', plot_around_nail 31 machine_init = Some s' /\
    current_ring_step_position s' = ((31 + 1) mod 32) * 512.
Proof.
  destruct (plot_around_nail_spec 31 machine_init
    ltac:(apply machine_okb_spec; vm_compute; reflexivity) ltac:(unfold num_nails; lia))
    as (s' & E & Hp & _).
  exists s'. split; [exact E|exact Hp].
Defined.

Lemma draw_ends_on_nail_1_witness :
  exists s', draw machine_init = Some s' /\ current_ring_step_position s' = 1 * steps_per_nail.
Proof.
  destruct (draw_ends_on_nail_1 machine_init
    ltac:(apply machine_okb_spec; vm_compute; reflexivity)) as (s' & E & Hp & _).
  exists s'. split; [exact E|exact Hp].
Defined.

Lemma plot_around_nail_weave_witness :
  plot_around_nail 31 machine_init =
    (do! (Ring.rotate_ring_to_nail 31) ;;
     Servo.moveServo servo_outside_angle ;;
     do! (Ring.rotate_ring 512 true) ;;
     Servo.moveServo servo_inside_angle) machine_init.
Proof.
  apply (plot_around_nail_weave 31 machine_init
    ltac:(apply machine_okb_spec; vm_compute; reflexivity) ltac:(unfold num_nails; lia)).
Defined.
End Witnesses.

End Planner.
