(* ===== verification/Session.v ===== *)
(** The session controller: [setup] (main.cpp 95-129), [loop] (131-157)
    and the operator handshake [wait_for_user_confirm] (71-76), as a
    labelled transition system.  A state is the program counter [Phase]
    (the four blocking waits, the points just after each wait, the
    drawing loop index, the final idle loop) and the [Machine].  Labels
    are internal steps [Tau] and the arrival of bytes on the serial line
    [Arrive], which the operator may send at any time; a wait can only
    pass when the receive buffer holds a byte, and then reads the buffer
    empty. *)

From Stdlib Require Import Init.Byte.
From S2P Require Import Prelude CInt Config Machine Coil Ring Servo Planner.

Local Open Scope sa_scope.

Module Session.

(** The four calls of [wait_for_user_confirm] (lines 107, 112, 127, 140). *)
Inductive WaitPoint := WStart | WRingRemoved | WConfigured | WStringAttached.

Inductive Phase :=
| PowerOn
| Await (w : WaitPoint)
| Resumed (w : WaitPoint)
| Drawing (i : Z)
| Complete.

#[export] Instance WaitPoint_eq_dec : EqDecision WaitPoint.
Proof. solve_decision. Defined.
#[export] Instance Phase_eq_dec : EqDecision Phase.
Proof. solve_decision. Defined.

Record Session := mkSession { phase : Phase; mach : Machine }.

Inductive Label := Tau | Arrive (bs : list byte).

Definition confirm_prompt : string := "    Confirm goto next setp: (any key): ".
Definition continuing_msg : string := "    Continuing program ...".

Section WithPlatform.
Context `{Platform}.

(** ** The handshake (lines 71-76) *)

(** Line 72. *)
Definition wait_prompt : Machine -> Machine := serial_println (MsgText confirm_prompt).

(** Line 74: [while (Serial.available()) Serial.read();], one byte per read.
    The drain is one step of the session: it reads the bytes buffered
    when it starts, and a byte arriving during the drain is left for
    the next wait. *)
Fixpoint drain_bytes (bs : list byte) (m : Machine) : Machine :=
  match bs with
  | [] => m
  | b :: bs' => drain_bytes bs' (emit (EvSerialRead b) (set_rx bs' m))
  end.

(** Lines 74-75, run once line 73 has seen a byte. *)
Definition wait_resume (m : Machine) : Machine :=
  serial_println (MsgText continuing_msg) (drain_bytes (rx_buffer m) m).

(** Bytes sent by the operator join the receive buffer. *)
Definition arrive (bs : list byte) (m : Machine) : Machine := set_rx (rx_buffer m ++ bs) m.

(** ** The straight-line segments between the waits *)

(** Lines 96-104 and the prompt of line 107 ([while(!Serial);] is taken
    as passed: the port is open). *)
Definition setup_start (m : Machine) : Machine :=
  wait_prompt
    (emit (EvServoAttach servoPin)
       (emit (EvPinModeOutput motorPin4) (emit (EvPinModeOutput motorPin3)
          (emit (EvPinModeOutput motorPin2) (emit (EvPinModeOutput motorPin1)
             (emit (EvSerialBegin 115200) m)))))).

(** Lines 110-112. *)
Definition after_start : cmd Machine :=
  do! (serial_println (MsgText "")) ;;
  do! (serial_println (MsgText "Please make sure the nail ring or servo arm is removed")) ;;
  do! wait_prompt.

(** Lines 114-127: the servo sweep test. *)
Definition servo_sweep_test : cmd Machine :=
  do! (serial_println (MsgText "")) ;;
  do! (serial_println (MsgText "Servo position max anti-clockwise - 0deg")) ;;
  Servo.moveServo 0 ;;
  do! (delay 500) ;;
  do! (serial_println (MsgText "Servo position max clockwise - 180deg")) ;;
  Servo.moveServo 180 ;;
  do! (delay 500) ;;
  do! (serial_println (MsgText "Servo position middle - 90deg")) ;;
  Servo.moveServo 90 ;;
  do! (delay 500) ;;
  do! (serial_println (MsgText "")) ;;
  do! (serial_println (MsgText "Please configure the servo-arm and nail ring to the inital position")) ;;
  do! wait_prompt.

(** Line 128 (end of [setup]) and lines 133-140 (start of [loop]). *)
Definition prepare_drawing : cmd Machine :=
  do! (delay 1000) ;;
  do! (serial_print (MsgText "")) ;;
  Servo.moveServo servo_inside_angle ;;
  do! (Ring.rotate_ring_to_nail (Planner.seq_at 1)) ;;
  do! (serial_println (MsgText "Please attach the string to the starting nail")) ;;
  do! (serial_println (MsgText "  the nail under the servo arm is number 0")) ;;
  do! (serial_print (MsgText "  ")) ;;
  do! (serial_print (MsgInt (Planner.seq_at 1))) ;;
  do! (serial_println (MsgText " counting clockwise")) ;;
  do! (serial_print (MsgText "  ")) ;;
  do! (serial_print (MsgInt (c_sub num_nails (Planner.seq_at 1)))) ;;
  do! (serial_println (MsgText " counting couter-clockwise")) ;;
  do! wait_prompt.

(** Lines 142-143. *)
Definition start_drawing : cmd Machine :=
  do! (serial_print (MsgText "")) ;;
  do! (serial_println (MsgText "STARTING DRAWING")).

(** What runs after each wait, and where it stops next. *)
Definition after_wait (w : WaitPoint) : cmd Machine :=
  match w with
  | WStart => after_start
  | WRingRemoved => servo_sweep_test
  | WConfigured => prepare_drawing
  | WStringAttached => start_drawing
  end.

Definition next_phase (w : WaitPoint) : Phase :=
  match w with
  | WStart => Await WRingRemoved
  | WRingRemoved => Await WConfigured
  | WConfigured => Await WStringAttached
  | WStringAttached => Drawing 1
  end.

(** Line 152. *)
Definition finish_drawing : Machine -> Machine := serial_println (MsgText "DRAWING COMPLETE").

(** Lines 154-156: [while (true) delay(10000);]. *)
Definition idle : Machine -> Machine := delay 10000.

(** ** The transition relation *)

Inductive sstep : Label -> Session -> Session -> Prop :=
| step_boot m :
    sstep Tau (mkSession PowerOn m) (mkSession (Await WStart) (setup_start m))
| step_confirm w m :
    rx_buffer m <> [] ->
    sstep Tau (mkSession (Await w) m) (mkSession (Resumed w) (wait_resume m))
| step_segment w m m' :
    after_wait w m = Some m' ->
    sstep Tau (mkSession (Resumed w) m) (mkSession (next_phase w) m')
| step_draw i m m' :
    i < double_bounce_star_sequence_len ->
    Planner.draw_step i m = Some m' ->
    sstep Tau (mkSession (Drawing i) m) (mkSession (Drawing (i + 1)) m')
| step_finish i m :
    double_bounce_star_sequence_len <= i ->
    sstep Tau (mkSession (Drawing i) m) (mkSession Complete (finish_drawing m))
| step_idle m :
    sstep Tau (mkSession Complete m) (mkSession Complete (idle m))
| step_arrive p m bs :
    sstep (Arrive bs) (mkSession p m) (mkSession p (arrive bs m)).

End WithPlatform.

(** Runs, each label recorded with the phase it fired in. *)
Inductive run `{Platform} : list (Phase * Label) -> Session -> Session -> Prop :=
| run_nil ss : run [] ss ss
| run_cons l ss ss' tr ss'' :
    sstep l ss ss' -> run tr ss' ss'' -> run ((phase ss, l) :: tr) ss ss''.

Definition initial : Session := mkSession PowerOn machine_init.

Definition reachable `{Platform} (ss : Session) : Prop := exists tr, run tr initial ss.

(** The operator's inputs in a run, with the phase each arrived in. *)
Fixpoint inputs (tr : list (Phase * Label)) : list (Phase * list byte) :=
  match tr with
  | [] => []
  | (p, Arrive bs) :: tr' => (p, bs) :: inputs tr'
  | (_, Tau) :: tr' => inputs tr'
  end.

(** ** Commands that keep the machine invariant *)

Section Good.
Context `{Platform}.

(** The machine invariant of the session: valid globals, and the phase
    index congruent to the position modulo 8. *)
Definition inv (m : Machine) : Prop := machine_ok m /\ Ring.phase_coupled m.

(** A command that, from any state satisfying the invariant, returns a
    state satisfying it, without touching the serial input. *)
Definition good (c : cmd Machine) : Prop :=
  forall m, inv m -> exists m', c m = Some m' /\ inv m' /\ rx_buffer m' = rx_buffer m.

Lemma good_seq c1 c2 : good c1 -> good c2 -> good (c1 ;; c2).
Proof.
  intros H1 H2 m Hm. destruct (H1 m Hm) as (m1 & E1 & Hm1 & Hr1).
  destruct (H2 m1 Hm1) as (m2 & E2 & Hm2 & Hr2).
  exists m2. rewrite (cmd_seq_Some _ _ _ _ E1). split; [exact E2|split; [exact Hm2|congruence]].
Qed.

Lemma good_emit e : good (do! (emit e)).
Proof. intros m Hm. by exists (emit e m). Qed.

Lemma good_move t : 0 <= t <= 180 -> good (Servo.moveServo t).
Proof.
  intros Ht m [Hm Hc]. destruct (Servo.move_servo_ok t m Hm Ht) as (m' & E & _ & Hp & Hi & Hr & Hm' & _).
  exists m'. split; [exact E|]. split; [split; [exact Hm'|]|exact Hr].
  unfold Ring.phase_coupled in *. by rewrite Hp, Hi.
Qed.

Lemma good_goto n : 0 <= n < num_nails -> good (do! (Ring.rotate_ring_to_nail n)).
Proof.
  intros Hn m [Hm Hc]. exists (Ring.rotate_ring_to_nail n m). split; [done|].
  destruct (Ring.to_nail_lands n m Hm Hn) as (_ & Hm' & _ & Hr).
  split; [split; [exact Hm'|]|exact Hr].
  rewrite (Ring.to_nail_exact n m (Ring.machine_ok_ring _ Hm) Hn).
  apply Ring.rotate_ring_coupled; [apply Ring.machine_ok_ring|]; assumption.
Qed.

(** Split a chain [c1 ;; c2 ;; ...] syntactically and discharge each
    command by [tac]. *)
Ltac good_chain tac :=
  match goal with
  | |- good (cmd_seq ?a ?b) => apply (good_seq a b); [good_chain tac|good_chain tac]
  | |- good (cmd_lift (emit _)) => apply good_emit
  | |- good (cmd_lift (serial_println _)) => apply good_emit
  | |- good (cmd_lift (serial_print _)) => apply good_emit
  | |- good (cmd_lift (delay _)) => apply good_emit
  | |- good (cmd_lift wait_prompt) => apply good_emit
  | |- _ => tac
  end.

Lemma good_plot n : 0 <= n < num_nails -> good (Planner.plot_around_nail n).
Proof.
  intros Hn. unfold Planner.plot_around_nail. cbn [goto_nail move_arm ring_driver arm_driver].
  unfold num_nails in Hn. rewrite Planner.next_nail by lia.
  good_chain idtac.
  - by apply good_goto.
  - apply good_move. rewrite servo_outside_angle_eq. lia.
  - apply good_goto. unfold num_nails. apply mod_in_range. lia.
  - apply good_move. rewrite servo_inside_angle_eq. lia.
Qed.

Lemma good_draw_step i : 0 <= i < 17 -> good (Planner.draw_step i).
Proof.
  intros Hi. unfold Planner.draw_step.
  good_chain ltac:(apply good_plot, Planner.seq_at_range, Hi).
Qed.

Lemma good_after_wait w : good (after_wait w).
Proof.
  destruct w; simpl;
    unfold after_start, servo_sweep_test, prepare_drawing, start_drawing;
    good_chain ltac:(try (apply good_move; rewrite ?servo_inside_angle_eq; lia)).
  apply good_goto. apply Planner.seq_at_range. lia.
Qed.

Lemma drain_fields bs m :
  rx_buffer m = bs ->
  let m' := drain_bytes bs m in
  current_ring_step_position m' = current_ring_step_position m /\
  current_step_index m' = current_step_index m /\
  current_servo_angle m' = current_servo_angle m /\
  rx_buffer m' = [].
Proof.
  revert m. induction bs as [|b bs IH]; intros m Hr; simpl; [done|].
  destruct (IH (emit (EvSerialRead b) (set_rx bs m)) eq_refl) as (-> & -> & -> & ->). done.
Qed.

Lemma wait_resume_inv m :
  inv m -> inv (wait_resume m) /\ rx_buffer (wait_resume m) = [].
Proof.
  intros [Hm Hc]. unfold wait_resume.
  destruct (drain_fields (rx_buffer m) m eq_refl) as (Hp & Hi & Ha & Hr).
  unfold inv, machine_ok, Ring.phase_coupled in *. simpl. rewrite Hp, Hi, Ha, Hr. done.
Qed.

Lemma setup_start_inv m : inv m -> inv (setup_start m).
Proof. done. Qed.

Lemma arrive_inv bs m : inv m -> inv (arrive bs m).
Proof. done. Qed.
End Good.

(** ** The session invariant *)

Section Invariant.
Context `{Platform}.

Definition session_ok (ss : Session) : Prop :=
  inv (mach ss) /\
  match phase ss with Drawing i => 1 <= i <= 17 | _ => True end.

Lemma initial_ok : session_ok initial.
Proof.
  split; [|done]. split; [apply machine_init_ok|reflexivity].
Qed.

Lemma good_result c m m' : good c -> inv m -> c m = Some m' -> inv m'.
Proof. intros Hc Hm E. destruct (Hc m Hm) as (m'' & E' & Hm'' & _). congruence. Qed.

Lemma sstep_ok l ss ss' : session_ok ss -> sstep l ss ss' -> session_ok ss'.
Proof.
  unfold session_ok. intros Hok Hs. destruct Hs; destruct Hok as [Hm Hp]; simpl in *;
    unfold double_bounce_star_sequence_len in *.
  - split; [apply setup_start_inv, Hm|done].
  - split; [apply wait_resume_inv, Hm|done].
  - split; [exact (good_result _ _ _ (good_after_wait w) Hm H0)|]. by destruct w.
  - assert (Hi : 0 <= i < 17) by lia.
    split; [exact (good_result _ _ _ (good_draw_step i Hi) Hm H1)|lia].
  - split; [exact Hm|done].
  - split; [exact Hm|done].
  - split; [apply arrive_inv, Hm|exact Hp].
Qed.

Lemma run_ok tr ss ss' : run tr ss ss' -> session_ok ss -> session_ok ss'.
Proof. induction 1; eauto using sstep_ok. Qed.
End Invariant.

(** ** Runs *)

Section Runs.
Context `{Platform}.

Lemma run_app tr1 tr2 a b c : run tr1 a b -> run tr2 b c -> run (tr1 ++ tr2) a c.
Proof. induction 1; intros; simpl; [done|]. econstructor; eauto. Qed.

Lemma inputs_app tr1 tr2 : inputs (tr1 ++ tr2) = inputs tr1 ++ inputs tr2.
Proof. induction tr1 as [|[p [|bs]] tr IH]; simpl; by rewrite ?IH. Qed.

Lemma run_one l p m ss' : sstep l (mkSession p m) ss' -> run [(p, l)] (mkSession p m) ss'.
Proof. intros Hs. apply (run_cons l (mkSession p m) ss' [] ss' Hs), run_nil. Qed.

Lemma run_step l p m ss' tr ss'' :
  sstep l (mkSession p m) ss' -> run tr ss' ss'' -> run ((p, l) :: tr) (mkSession p m) ss''.
Proof. apply (run_cons l (mkSession p m)). Qed.

Lemma boot_run :
  run [(PowerOn, Tau)] initial (mkSession (Await WStart) (setup_start machine_init)) /\
  inv (setup_start machine_init) /\ rx_buffer (setup_start machine_init) = [].
Proof.
  split; [apply run_one, step_boot|]. split; [apply setup_start_inv, initial_ok|done].
Qed.

(** Bytes arrive, and the wait they unblock reads the buffer empty. *)
Lemma confirm_run w bs m :
  inv m -> rx_buffer m ++ bs <> [] ->
  run [(Await w, Arrive bs); (Await w, Tau)] (mkSession (Await w) m)
      (mkSession (Resumed w) (wait_resume (arrive bs m))) /\
  inv (wait_resume (arrive bs m)) /\ rx_buffer (wait_resume (arrive bs m)) = [].
Proof.
  intros Hm Hb. split.
  - eapply run_step; [apply step_arrive|]. apply run_one, step_confirm, Hb.
  - apply wait_resume_inv, arrive_inv, Hm.
Qed.

Lemma segment_run w m :
  inv m -> exists m',
    run [(Resumed w, Tau)] (mkSession (Resumed w) m) (mkSession (next_phase w) m') /\
    inv m' /\ rx_buffer m' = rx_buffer m.
Proof.
  intros Hm. destruct (good_after_wait w m Hm) as (m' & E & Hm' & Hr).
  exists m'. split; [apply run_one, step_segment, E|done].
Qed.

(** One prompt answered with one byte: from the wait to the next phase. *)
Lemma stage_run w b m :
  inv m -> rx_buffer m = [] -> exists tr m',
    run tr (mkSession (Await w) m) (mkSession (next_phase w) m') /\
    inputs tr = [(Await w, [b])] /\ inv m' /\ rx_buffer m' = [].
Proof.
  intros Hm Hr. destruct (confirm_run w [b] m Hm) as (R1 & Hm1 & Hr1); [by rewrite Hr|].
  destruct (segment_run w _ Hm1) as (m2 & R2 & Hm2 & Hr2).
  eexists _, m2. split; [exact (run_app _ _ _ _ _ R1 R2)|]. split; [done|]. by rewrite Hr2.
Qed.

(** The drawing loop as a run, from index [i] to the loop's exit. *)
Lemma draw_run n i m :
  inv m -> 1 <= i -> i + Z.of_nat n = 17 -> exists tr m',
    run tr (mkSession (Drawing i) m) (mkSession (Drawing 17) m') /\
    inputs tr = [] /\ Planner.draw_from n i m = Some m'.
Proof.
  revert i m. induction n as [|n IH]; intros i m Hm Hi Hn.
  - simpl in Hn. replace i with 17 by lia. exists [], m. split; [constructor|done].
  - destruct (good_draw_step i ltac:(lia) m Hm) as (m1 & E1 & Hm1 & _).
    destruct (IH (i + 1) m1 Hm1) as (tr & m' & R & Ei & Ed); [lia|lia|].
    exists ((Drawing i, Tau) :: tr), m'. split; [|split; [done|]].
    + eapply run_step; [|exact R]. apply step_draw; [unfold double_bounce_star_sequence_len; lia|exact E1].
    + simpl. by rewrite (cmd_seq_Some _ _ _ _ E1).
Qed.

(** From [Complete], a step idles or records arrivals. *)
Lemma complete_step l m ss' :
  sstep l (mkSession Complete m) ss' ->
  exists m', ss' = mkSession Complete m' /\
    current_ring_step_position m' = current_ring_step_position m /\
    current_step_index m' = current_step_index m /\
    current_servo_angle m' = current_servo_angle m /\
    exists k, trace_rev m' = repeat (EvDelay 10000) k ++ trace_rev m.
Proof.
  intros Hs. inversion Hs; subst.
  - eexists. split; [reflexivity|]. do 3 (split; [done|]). by exists 1%nat.
  - eexists. split; [reflexivity|]. do 3 (split; [done|]). by exists 0%nat.
Qed.
End Runs.

(** ** Properties of the controller *)

Section Properties.
Context `{Platform}.

(** C4 (invariant): every state the controller reaches, under any
    interleaving of operator input, satisfies the invariant: position in
    [0, 16384), phase index in [0, 8) and congruent to the position
    modulo 8, servo angle in [0, 180], drawing index in [1, 17]. *)
Theorem session_reachable_ok ss : reachable ss -> session_ok ss.
Proof. intros [tr R]. exact (run_ok tr _ _ R initial_ok). Qed.

(** C10 (safety): no prompt is passed without operator input: from a wait
    with an empty receive buffer, a run in which no byte arrives stays
    at that wait. *)
Theorem wait_blocks_without_input w m tr ss :
  rx_buffer m = [] -> run tr (mkSession (Await w) m) ss -> inputs tr = [] ->
  phase ss = Await w /\ rx_buffer (mach ss) = [].
Proof.
  intros Hr R. remember (mkSession (Await w) m) as s0 eqn:E0. revert m Hr E0.
  induction R as [ss|l ss ss' tr ss'' Hs R IH]; intros m Hr -> Hi; [done|].
  inversion Hs; subst; simpl in Hi; [done|].
  by eapply IH.
Qed.

(** C9 (safety): once [DRAWING COMPLETE] is printed the controller only
    idles: whatever arrives, the phase stays [Complete], the ring, the
    coil phase and the arm never change again, and the only Arduino calls
    issued are [delay(10000)]. *)
Theorem complete_terminal tr m ss :
  run tr (mkSession Complete m) ss ->
  phase ss = Complete /\
  current_ring_step_position (mach ss) = current_ring_step_position m /\
  current_step_index (mach ss) = current_step_index m /\
  current_servo_angle (mach ss) = current_servo_angle m /\
  exists k, trace_rev (mach ss) = repeat (EvDelay 10000) k ++ trace_rev m.
Proof.
  intros R. remember (mkSession Complete m) as s0 eqn:E0. revert m E0.
  induction R as [ss|l ss ss' tr ss'' Hs R IH]; intros m ->.
  - do 4 (split; [done|]). by exists 0%nat.
  - destruct (complete_step _ _ _ Hs) as (m' & -> & Hp & Hi & Ha & k & Ht).
    destruct (IH m' eq_refl) as (Hp' & Hp'' & Hi' & Ha' & k' & Ht').
    do 4 (split; [congruence|]). exists (k' + k)%nat. by rewrite Ht', Ht, repeat_app, app_assoc.
Qed.

(** C5 (liveness): an operator who answers each of the four prompts with
    one byte takes the controller from power-on to [Complete]; the whole
    drawing runs, and it ends with the ring on nail 1 and the arm
    inside. *)
Theorem operator_session_completes (b : byte) :
  exists tr m, run tr initial (mkSession Complete m) /\
    inputs tr = [(Await WStart, [b]); (Await WRingRemoved, [b]);
                 (Await WConfigured, [b]); (Await WStringAttached, [b])] /\
    current_ring_step_position m = 1 * steps_per_nail /\
    current_servo_angle m = servo_inside_angle.
Proof.
  destruct boot_run as (R0 & Hm0 & Hr0).
  destruct (stage_run WStart b _ Hm0 Hr0) as (tr1 & m1 & R1 & I1 & Hm1 & Hr1).
  destruct (stage_run WRingRemoved b _ Hm1 Hr1) as (tr2 & m2 & R2 & I2 & Hm2 & Hr2).
  destruct (stage_run WConfigured b _ Hm2 Hr2) as (tr3 & m3 & R3 & I3 & Hm3 & Hr3).
  destruct (stage_run WStringAttached b _ Hm3 Hr3) as (tr4 & m4 & R4 & I4 & Hm4 & Hr4).
  destruct (draw_run 16 1 m4 Hm4) as (tr5 & m5 & R5 & I5 & E5); [lia|reflexivity|].
  destruct (Planner.draw_from_ok 16 1 m4 (proj1 Hm4)) as (m5' & E5' & _ & _ & Hl); [lia|lia|].
  rewrite E5 in E5'. injection E5' as <-. destruct Hl as [Hp Ha]; [done|].
  exists ([(PowerOn, Tau)] ++ tr1 ++ tr2 ++ tr3 ++ tr4 ++ tr5 ++ [(Drawing 17, Tau)]),
    (finish_drawing m5).
  split; [|split; [rewrite !inputs_app, I1, I2, I3, I4, I5; reflexivity|]].
  - do 6 (eapply run_app; [eassumption|]). apply run_one, step_finish. done.
  - rewrite steps_per_nail_eq, servo_inside_angle_eq. split; [exact Hp|exact Ha].
Qed.

(** C13 (safety, finding): [wait_for_user_confirm] drains only the bytes present when
    it runs.  A byte that arrives after the first prompt has been
    answered (a line ending sent after the key, say) lets the next wait,
    "Please make sure the nail ring or servo arm is removed", pass
    without an answer: the controller reaches the configuration prompt,
    after running the full servo sweep, with the operator never having
    confirmed that the ring is removed. *)
Theorem stale_byte_skips_ring_check (b1 b2 : byte) :
  exists tr m, run tr initial (mkSession (Await WConfigured) m) /\
    inputs tr = [(Await WStart, [b1]); (Resumed WStart, [b2])].
Proof.
  destruct boot_run as (R0 & Hm0 & Hr0).
  destruct (confirm_run WStart [b1] _ Hm0) as (R1 & Hm1 & Hr1); [by rewrite Hr0|].
  set (m2 := arrive [b2] (wait_resume (arrive [b1] (setup_start machine_init)))).
  assert (Hm2 : inv m2) by (apply arrive_inv, Hm1).
  destruct (segment_run WStart m2 Hm2) as (m3 & R3 & Hm3 & Hr3).
  assert (Hb : rx_buffer m3 = [b2]) by (rewrite Hr3; unfold m2; change (rx_buffer (arrive [b2] ?x)) with (rx_buffer x ++ [b2]);
      by rewrite Hr1).
  assert (R4 : run [(Await WRingRemoved, Tau)] (mkSession (Await WRingRemoved) m3)
                 (mkSession (Resumed WRingRemoved) (wait_resume m3)))
    by (apply run_one, step_confirm; by rewrite Hb).
  destruct (segment_run WRingRemoved _ (proj1 (wait_resume_inv m3 Hm3))) as (m5 & R5 & _).
  exists ([(PowerOn, Tau)] ++ [(Await WStart, Arrive [b1]); (Await WStart, Tau)] ++
          [(Resumed WStart, Arrive [b2])] ++ [(Resumed WStart, Tau)] ++
          [(Await WRingRemoved, Tau)] ++ [(Resumed WRingRemoved, Tau)]), m5.
  split; [|reflexivity].
  eapply run_app; [exact R0|]. eapply run_app; [exact R1|].
  eapply run_app; [apply run_one, step_arrive|]. eapply run_app; [exact R3|].
  eapply run_app; [exact R4|exact R5].
Qed.
End Properties.

Section Witnesses.
#[local] Existing Instance rp2040.

Lemma session_reachable_ok_witness :
  reachable (mkSession (Await WStart) (setup_start machine_init)) /\
  session_ok (mkSession (Await WStart) (setup_start machine_init)).
Proof.
  assert (Hr : reachable (mkSession (Await WStart) (setup_start machine_init)))
    by (exists [(PowerOn, Tau)]; apply run_one, step_boot).
  split; [exact Hr|exact (session_reachable_ok _ Hr)].
Defined.

Lemma wait_blocks_without_input_witness :
  phase (mkSession (Await WStart) (setup_start machine_init)) = Await WStart /\
  rx_buffer (mach (mkSession (Await WStart) (setup_start machine_init))) = [].
Proof.
  apply (wait_blocks_without_input WStart (setup_start machine_init) []); [reflexivity|constructor|reflexivity].
Defined.

Lemma complete_terminal_witness :
  current_servo_angle (mach (mkSession Complete (arrive ["a"%byte] (idle machine_init)))) = 90 /\
  current_ring_step_position (mach (mkSession Complete (arrive ["a"%byte] (idle machine_init)))) = 0.
Proof.
  destruct (complete_terminal [(Complete, Tau); (Complete, Arrive ["a"%byte])] machine_init
              (mkSession Complete (arrive ["a"%byte] (idle machine_init))))
    as (_ & Hp & _ & Ha & _).
  - eapply run_step; [apply step_idle|]. apply run_one, step_arrive.
  - split; [exact Ha|exact Hp].
Defined.
End Witnesses.

End Session.
